(** * NexusCtrl: the telemetry relay hub and the monitoring agent

  A shallow embedding of the two programs of the repository:

  - [backend/app.py]: the hub.  Its [MetricsConnectionManager] keeps, per
    server id, one agent transport and a set of viewer transports; the
    endpoints [ws_agent] and [ws_metrics] admit connections, fan telemetry
    out to the viewers and relay viewer commands to the agent.
  - [backend/agent.py]: the agent.  [collect_metrics] samples the host,
    [handle_commands] executes relayed commands and [run_agent] runs the
    publish loop.

  Python dictionaries keyed by server id are [gmap]s, Python sets of
  transports are [gset]s, exceptions are an explicit [outcome] type and
  network or operating-system effects are recorded as event traces. *)

From stdpp Require Import base gmap sets list strings sorting.
From Stdlib Require Import QArith Ascii.

Set Warnings "-register-all,-clear-no-such-hyp".

Local Open Scope string_scope.
Local Open Scope Z_scope.
Local Open Scope list_scope.

(** ** Python values shared by both programs *)

Module Py.

(** The exception classes that the two programs raise or catch. *)
Inductive exn_class :=
| WebSocketDisconnect
| JSONDecodeError
| AttributeError
| TypeError
| NoSuchProcess
| AccessDenied
| ZombieProcess
| ConnectionClosed
| OSError.

Global Instance exn_class_eq_dec : EqDecision exn_class.
Proof. solve_decision. Defined.

(** An exception object: its class and [str(e)]. *)
Record exn := Exn { exn_cls : exn_class; exn_msg : string }.

(** The result of running a Python expression that may raise. *)
Inductive outcome (A : Type) :=
| Ok (a : A)
| Raise (e : exn).
Global Arguments Ok {A} a.
Global Arguments Raise {A} e.

Definition bind {A B} (o : outcome A) (k : A → outcome B) : outcome B :=
  match o with
  | Ok a => k a
  | Raise e => Raise e
  end.

Definition is_ok {A} (o : outcome A) : bool :=
  match o with Ok _ => true | Raise _ => false end.

(** The values [json.loads] produces. *)
Inductive json :=
| JNull
| JBool (b : bool)
| JInt (n : Z)
| JFloat (q : Q)
| JStr (s : string)
| JArr (items : list json)
| JObj (fields : list (string * json)).

(** Python truthiness, as tested by [if pid:]. *)
Definition truthy (v : json) : bool :=
  match v with
  | JNull => false
  | JBool b => b
  | JInt n => negb (Z.eqb n 0)
  | JFloat q => negb (Qeq_bool q 0)
  | JStr s => negb (String.eqb s "")
  | JArr items => match items with [] => false | _ => true end
  | JObj fields => match fields with [] => false | _ => true end
  end.

Fixpoint assoc (key : string) (fields : list (string * json)) : option json :=
  match fields with
  | [] => None
  | (k, v) :: rest => if String.eqb k key then Some v else assoc key rest
  end.

(** [v.get(key)]: [None] (which is also what a JSON null decodes to) for
    a missing key; only dictionaries have the method, on any other value
    the attribute lookup raises. *)
Definition get (key : string) (v : json) : outcome json :=
  match v with
  | JObj fields => Ok (default JNull (assoc key fields))
  | _ => Raise (Exn AttributeError "object has no attribute 'get'")
  end.

(** [x == s] and [x != s] for a string [s]. *)
Definition eq_str (x : json) (s : string) : bool :=
  match x with
  | JStr s' => String.eqb s' s
  | _ => false
  end.

Definition ne_str (x : json) (s : string) : bool := negb (eq_str x s).

(** A text frame on a transport, seen through [json.loads]: either a
    string that is not a JSON document (the empty string included), or a
    JSON document, identified with the value it decodes to.  [json.dumps]
    and [send_json] produce a document of the value they are given. *)
Inductive text :=
| Raw (s : string)
| Doc (v : json).

Definition json_loads (t : text) : outcome json :=
  match t with
  | Raw s => Raise (Exn JSONDecodeError s)
  | Doc v => Ok v
  end.

Definition json_dumps (v : json) : text := Doc v.

(** [if data:] on a received string: only the empty string is falsy. *)
Definition nonempty (t : text) : bool :=
  match t with
  | Raw s => negb (String.eqb s "")
  | Doc _ => true
  end.

End Py.

(** ** The hub: [backend/app.py] *)

Module Hub.
Import Py.

(** A transport handle; two handles are the same connection exactly when
    they are equal. *)
Definition WebSocket := nat.

Record Settings := { AGENT_SECRET : string }.

(** The defaults of the [Settings] class. *)
Definition settings : Settings := {| AGENT_SECRET := "nexusctrl-agent-secret" |}.

Record MetricsConnectionManager := Manager {
  client_connections : gmap Z (gset WebSocket);
  agent_connections : gmap Z WebSocket
}.

Definition empty_manager : MetricsConnectionManager := Manager ∅ ∅.

(** What the hub does to transports. [Send] records one send attempt and
    whether it went through. *)
Inductive event :=
| Accept (ws : WebSocket)
| Close (ws : WebSocket) (code : Z)
| Send (ws : WebSocket) (t : text) (delivered : bool).

Section Methods.

(** Whether a send on a transport succeeds. *)
Variable alive : WebSocket → bool.

Definition connect_client (websocket : WebSocket) (server_id : Z)
    (m : MetricsConnectionManager) : MetricsConnectionManager * list event :=
  let cc := client_connections m in
  let cc := if decide (is_Some (cc !! server_id)) then cc else <[server_id := ∅]> cc in
  let cc := <[server_id := default ∅ (cc !! server_id) ∪ {[websocket]}]> cc in
  (Manager cc (agent_connections m), [Accept websocket]).

Definition disconnect_client (websocket : WebSocket) (server_id : Z)
    (m : MetricsConnectionManager) : MetricsConnectionManager :=
  match client_connections m !! server_id with
  | Some viewers =>
      let viewers := viewers ∖ {[websocket]} in
      if decide (viewers = ∅)
      then Manager (delete server_id (client_connections m)) (agent_connections m)
      else Manager (<[server_id := viewers]> (client_connections m)) (agent_connections m)
  | None => m
  end.

Definition connect_agent (websocket : WebSocket) (server_id : Z)
    (m : MetricsConnectionManager) : MetricsConnectionManager * list event :=
  (Manager (client_connections m) (<[server_id := websocket]> (agent_connections m)),
   [Accept websocket]).

(** [self.agent_connections.pop(server_id, None)] *)
Definition disconnect_agent (server_id : Z)
    (m : MetricsConnectionManager) : MetricsConnectionManager :=
  Manager (client_connections m) (delete server_id (agent_connections m)).

(** The first loop of [broadcast_to_clients]: one [send_json] per viewer,
    the ones that raise are collected in [dead]. *)
Fixpoint send_each (data : json) (targets : list WebSocket) (dead : gset WebSocket)
    : gset WebSocket * list event :=
  match targets with
  | [] => (dead, [])
  | ws :: rest =>
      let ok := alive ws in
      let dead := if ok then dead else dead ∪ {[ws]} in
      let '(dead, evs) := send_each data rest dead in
      (dead, Send ws (json_dumps data) ok :: evs)
  end.

Definition broadcast_to_clients (server_id : Z) (data : json)
    (m : MetricsConnectionManager) : MetricsConnectionManager * list event :=
  match client_connections m !! server_id with
  | Some viewers =>
      let '(dead, evs) := send_each data (elements viewers) ∅ in
      (Manager (<[server_id := viewers ∖ dead]> (client_connections m))
               (agent_connections m), evs)
  | None => (m, [])
  end.

(** *** The endpoints

    Each endpoint is a coroutine that suspends at [receive_text].  It is
    modelled by what it does when the connection opens and by one step per
    value the suspended [receive_text] produces; between two suspensions
    the code runs without interleaving. *)

Inductive recv :=
| Message (t : text)
| Disconnected.

Inductive phase :=
| Handshake
| Streaming
| Finished.

Variable cfg : Settings.

(** The test of the first message in [ws_agent]:
    [json.loads(...).get("secret") != settings.AGENT_SECRET], [Raise] when
    the expression raises. *)
Definition secret_mismatch (t : text) : outcome bool :=
  bind (json_loads t) (λ v,
  bind (get "secret" v) (λ x,
  Ok (ne_str x (AGENT_SECRET cfg)))).

(** [ws_agent] up to its first [receive_text]. *)
Definition ws_agent_open (websocket : WebSocket) : phase * list event :=
  (Handshake, [Accept websocket]).

Definition ws_agent_step (websocket : WebSocket) (sid : Z) (ph : phase) (r : recv)
    (m : MetricsConnectionManager) : MetricsConnectionManager * phase * list event :=
  match ph with
  | Handshake =>
      match r with
      | Message t =>
          match secret_mismatch t with
          | Ok true => (m, Finished, [Close websocket 4001])
          | Ok false =>
              (Manager (client_connections m) (<[sid := websocket]> (agent_connections m)),
               Streaming, [])
          | Raise _ => (m, Finished, [Close websocket 4001])
          end
      | Disconnected => (m, Finished, [Close websocket 4001])
      end
  | Streaming =>
      match r with
      | Message data =>
          if nonempty data then
            match json_loads data with
            | Ok v =>
                let '(m, evs) := broadcast_to_clients sid v m in
                (m, Streaming, evs)
            | Raise _ => (disconnect_agent sid m, Finished, [])
            end
          else (m, Streaming, [])
      | Disconnected => (disconnect_agent sid m, Finished, [])
      end
  | Finished => (m, Finished, [])
  end.

(** [ws_metrics] up to its first [receive_text]. *)
Definition ws_metrics_open (websocket : WebSocket) (sid : Z)
    (m : MetricsConnectionManager) : MetricsConnectionManager * phase * list event :=
  let '(m, evs) := connect_client websocket sid m in
  (m, Streaming, evs).

(** The body of the loop of [ws_metrics] for one received string: the
    relay of a viewer message to the agent.  [Raise] is an exception that
    leaves the loop. *)
Definition relay_to_agent (sid : Z) (data : text) (m : MetricsConnectionManager)
    : outcome unit * list event :=
  if nonempty data then
    match json_loads data with
    | Ok msg =>
        match agent_connections m !! sid with
        | Some agent =>
            let ok := alive agent in
            (if ok then Ok () else Raise (Exn WebSocketDisconnect "send failed"),
             [Send agent (json_dumps msg) ok])
        | None => (Ok (), [])
        end
    | Raise e => (Raise e, [])
    end
  else (Ok (), []).

Definition ws_metrics_step (websocket : WebSocket) (sid : Z) (ph : phase) (r : recv)
    (m : MetricsConnectionManager) : MetricsConnectionManager * phase * list event :=
  match ph with
  | Streaming =>
      match r with
      | Message data =>
          match relay_to_agent sid data m with
          | (Ok _, evs) => (m, Streaming, evs)
          | (Raise _, evs) => (disconnect_client websocket sid m, Finished, evs)
          end
      | Disconnected => (disconnect_client websocket sid m, Finished, [])
      end
  | _ => (m, Finished, [])
  end.

End Methods.

(** *** The hub process: the registry and the live endpoint coroutines *)

Inductive role := AgentEndpoint | ViewerEndpoint.

Record connection := Connection {
  conn_role : role;
  conn_sid : Z;
  conn_phase : phase
}.

Record hub := HubState {
  metrics_manager : MetricsConnectionManager;
  connections : gmap WebSocket connection
}.

Definition initial_hub : hub := HubState empty_manager ∅.

(** What reaches the hub from the network. *)
Inductive input :=
| Open (r : role) (websocket : WebSocket) (sid : Z)
| Deliver (websocket : WebSocket) (r : recv).

Definition hub_step (alive : WebSocket → bool) (cfg : Settings) (h : hub) (i : input)
    : hub * list event :=
  match i with
  | Open AgentEndpoint ws sid =>
      let '(ph, evs) := ws_agent_open ws in
      (HubState (metrics_manager h) (<[ws := Connection AgentEndpoint sid ph]> (connections h)),
       evs)
  | Open ViewerEndpoint ws sid =>
      let '(m, ph, evs) := ws_metrics_open ws sid (metrics_manager h) in
      (HubState m (<[ws := Connection ViewerEndpoint sid ph]> (connections h)), evs)
  | Deliver ws r =>
      match connections h !! ws with
      | Some c =>
          let '(m, ph, evs) :=
            match conn_role c with
            | AgentEndpoint =>
                ws_agent_step alive cfg ws (conn_sid c) (conn_phase c) r (metrics_manager h)
            | ViewerEndpoint =>
                ws_metrics_step alive ws (conn_sid c) (conn_phase c) r (metrics_manager h)
            end in
          (HubState m (<[ws := Connection (conn_role c) (conn_sid c) ph]> (connections h)), evs)
      | None => (h, [])
      end
  end.

Fixpoint hub_run (alive : WebSocket → bool) (cfg : Settings) (h : hub) (inputs : list input)
    : hub * list event :=
  match inputs with
  | [] => (h, [])
  | i :: rest =>
      let '(h, evs) := hub_step alive cfg h i in
      let '(h, evs') := hub_run alive cfg h rest in
      (h, evs ++ evs')
  end.

(** *** Vocabulary of the properties *)

(** A handshake that carries the secret [s]: a JSON object whose [secret]
    is the string [s]. *)
Definition presents_secret (t : text) (s : string) : Prop :=
  ∃ fields, t = Doc (JObj fields) ∧ assoc "secret" fields = Some (JStr s).

(** The transport an event touches. *)
Definition event_ws (ev : event) : WebSocket :=
  match ev with
  | Accept ws => ws
  | Close ws _ => ws
  | Send ws _ _ => ws
  end.

(** The viewer set of a server id, empty when the key is absent. *)
Definition viewers (sid : Z) (m : MetricsConnectionManager) : gset WebSocket :=
  default ∅ (client_connections m !! sid).

(** A run of broadcasts and relays for one server id. *)
Inductive request :=
| Broadcast (data : json)
| Relay (data : text).

Definition serve (alive : WebSocket → bool) (sid : Z) (q : request)
    (m : MetricsConnectionManager) : MetricsConnectionManager * list event :=
  match q with
  | Broadcast data => broadcast_to_clients alive sid data m
  | Relay data => (m, (relay_to_agent alive sid data m).2)
  end.

Fixpoint serve_all (alive : WebSocket → bool) (sid : Z) (qs : list request)
    (m : MetricsConnectionManager) : MetricsConnectionManager * list event :=
  match qs with
  | [] => (m, [])
  | q :: rest =>
      let '(m, evs) := serve alive sid q m in
      let '(m, evs') := serve_all alive sid rest m in
      (m, evs ++ evs')
  end.

End Hub.

(** ** The agent: [backend/agent.py] *)

Module Agent.
Import Py.

Definition BACKEND_URL : string := "ws://127.0.0.1:8000/ws/agent/1".
Definition AGENT_SECRET : string := "dev-secret-key-change-me".
Definition UPDATE_INTERVAL : Z := 3.

(** *** Numbers and strings *)

(** [round(x, ndigits)]: the nearest multiple of [10^-ndigits], a tie going
    to the even one.  Floats are read as the rationals they denote. *)
Definition round (x : Q) (ndigits : nat) : Q :=
  let scale := 10 ^ Z.of_nat ndigits in
  let n := Qnum x * scale in
  let d := Z.pos (Qden x) in
  let low := n `div` d in
  let twice := 2 * (n `mod` d) in
  let k :=
    if twice <? d then low
    else if d <? twice then low + 1
    else if Z.even low then low else low + 1 in
  Qmake k (Z.to_pos scale).

Definition lower_ascii (c : ascii) : ascii :=
  let n := nat_of_ascii c in
  if ((65 <=? n) && (n <=? 90))%nat then ascii_of_nat (n + 32) else c.

(** [s.lower()], on ASCII letters. *)
Fixpoint lower (s : string) : string :=
  match s with
  | EmptyString => EmptyString
  | String c rest => String (lower_ascii c) (lower rest)
  end.

(** [needle in hay] *)
Fixpoint contains (needle hay : string) : bool :=
  String.prefix needle hay ||
  match hay with
  | EmptyString => false
  | String _ rest => contains needle rest
  end.

(** *** The host, as one tick of the sampler reads it *)

(** [proc.info] of one process of [psutil.process_iter]. *)
Record pinfo := PInfo {
  pid : Z;
  name : string;
  username : string;
  cpu_percent : Q;
  memory_percent : Q
}.

Record host := Host {
  host_cpu_percent : outcome Q;
  host_virtual_memory : outcome Q;
  (** [bytes_recv] and [bytes_sent] *)
  host_net_io_counters : outcome (Z * Z);
  (** Per process, what the body of the [try] of [get_processes] finds:
      the process information or the exception raised while it is read. *)
  host_process_iter : list (outcome pinfo);
  (** [ImageGrab.grab()] up to the base64 string of the JPEG. *)
  host_grab : outcome string;
  host_time : string;
  host_isoformat : string
}.

(** *** The sampler *)

(** An entry of the process list of a snapshot. *)
Record process := Process {
  p_pid : Z;
  p_name : string;
  p_user : string;
  p_cpu : Q;
  p_ram : Q
}.

Definition entry (pinfo : pinfo) : process :=
  {| p_pid := pid pinfo;
     p_name := name pinfo;
     p_user := username pinfo;
     p_cpu := round (cpu_percent pinfo) 1;
     p_ram := round (memory_percent pinfo) 1 |}.

(** [except (psutil.NoSuchProcess, psutil.AccessDenied, psutil.ZombieProcess)] *)
Definition skipped (e : exn) : bool :=
  match exn_cls e with
  | NoSuchProcess | AccessDenied | ZombieProcess => true
  | _ => false
  end.

(** The loop of [get_processes], [procs] being the list built so far. *)
Fixpoint gather (iter : list (outcome pinfo)) (procs : list process)
    : outcome (list process) :=
  match iter with
  | [] => Ok procs
  | Ok pinfo :: rest => gather rest (procs ++ [entry pinfo])
  | Raise e :: rest => if skipped e then gather rest procs else Raise e
  end.

(** [sorted(procs, key=lambda x: x['cpu'], reverse=True)]: a stable sort,
    entries of equal key keep their order. *)
Fixpoint insert_desc (x : process) (l : list process) : list process :=
  match l with
  | [] => [x]
  | y :: rest =>
      if Qle_bool (p_cpu y) (p_cpu x) then x :: y :: rest
      else y :: insert_desc x rest
  end.

Definition sorted_desc (procs : list process) : list process :=
  foldr insert_desc [] procs.

Definition get_processes (iter : list (outcome pinfo)) : outcome (list process) :=
  bind (gather iter []) (λ procs, Ok (take 20 (sorted_desc procs))).

(** The dictionary [capture_screen] returns; [shot_error] is [None] when
    the key is absent. *)
Record shot := Shot {
  shot_data : option string;
  shot_status : string;
  shot_error : option string
}.

Definition capture_screen (grab : outcome string) : shot :=
  match grab with
  | Ok img_str => Shot (Some ("data:image/jpeg;base64," +:+ img_str)) "ok" None
  | Raise e =>
      let emsg := lower (exn_msg e) in
      if contains "screen grab failed" emsg || contains "handle" emsg
      then Shot None "locked" (Some "RDP Session Disconnected (Desktop Locked)")
      else Shot None "error" (Some (exn_msg e))
  end.

(** A telemetry snapshot.  The keys [screenshot], [screenshot_status] and
    [screenshot_error] are set together or not at all: [m_screenshot] is
    [None] when they are absent. *)
Record metrics := Metrics {
  m_time : string;
  m_cpu : Q;
  m_ram : Q;
  m_net_rx : Q;
  m_net_tx : Q;
  m_processes : list process;
  m_status : string;
  m_timestamp : string;
  m_screenshot : option shot
}.

Definition collect_metrics (h : host) (include_screenshot : bool) : outcome metrics :=
  bind (host_cpu_percent h) (λ cpu,
  bind (host_virtual_memory h) (λ ram,
  bind (host_net_io_counters h) (λ net_stats,
  let rx_total := round (inject_Z (fst net_stats) / 1024 / 1024) 2 in
  let tx_total := round (inject_Z (snd net_stats) / 1024 / 1024) 2 in
  bind (get_processes (host_process_iter h)) (λ processes,
  let metrics :=
    {| m_time := host_time h;
       m_cpu := cpu;
       m_ram := ram;
       m_net_rx := rx_total;
       m_net_tx := tx_total;
       m_processes := processes;
       m_status := "online";
       m_timestamp := host_isoformat h;
       m_screenshot := None |} in
  if include_screenshot then
    let ss_result := capture_screen (host_grab h) in
    Ok (Metrics (m_time metrics) (m_cpu metrics) (m_ram metrics) (m_net_rx metrics)
          (m_net_tx metrics) (m_processes metrics) (m_status metrics)
          (m_timestamp metrics) (Some ss_result))
  else Ok metrics)))).

(** *** The command executor *)

Inductive log_line :=
| KillReceived (pid : json)
| KillDone (pid : json)
| CommandFailed (e : exn).

(** What [handle_commands] does on the host: lines printed, process
    handles created with [psutil.Process(pid)] and [terminate()] calls. *)
Inductive event :=
| Printed (l : log_line)
| NewProcess (pid : json)
| Terminate (pid : json).

(** The operating system's answer to [psutil.Process(pid)] and to
    [p.terminate()]. *)
Record os := OS {
  os_process : json → outcome unit;
  os_terminate : json → outcome unit
}.

(** The statements under [if pid:]; an exception is caught by the
    [except Exception] of the loop body, which prints it. *)
Definition kill (sys : os) (pid : json) : list event :=
  Printed (KillReceived pid) :: NewProcess pid ::
  match os_process sys pid with
  | Ok _ =>
      Terminate pid ::
      match os_terminate sys pid with
      | Ok _ => [Printed (KillDone pid)]
      | Raise e => [Printed (CommandFailed e)]
      end
  | Raise e => [Printed (CommandFailed e)]
  end.

(** The body of the loop of [handle_commands] for one message. *)
Definition handle_command (sys : os) (message : text) : list event :=
  match json_loads message with
  | Ok command =>
      match get "action" command with
      | Ok action =>
          if eq_str action "kill" then
            match get "pid" command with
            | Ok pid =>
                if truthy pid then kill sys pid else []
            | Raise e => [Printed (CommandFailed e)]
            end
          else []
      | Raise e => [Printed (CommandFailed e)]
      end
  | Raise e => [Printed (CommandFailed e)]
  end.

(** [handle_commands] on the messages received until the connection
    closes. *)
Fixpoint handle_commands (sys : os) (messages : list text) : list event :=
  match messages with
  | [] => []
  | message :: rest => handle_command sys message ++ handle_commands sys rest
  end.

(** *** The publish loop of [run_agent] *)

(** One iteration as the environment decides it: the state of the host
    and whether [websocket.send] goes through. *)
Record tick := Tick {
  tick_host : host;
  tick_send_ok : bool
}.

(** [counter % 5 == 0] *)
Definition take_ss (counter : Z) : bool := counter `mod` 5 =? 0.

(** How an observed prefix of the loop ends: still looping, with the value
    of [counter], or left by an exception. *)
Inductive loop_state :=
| Looping (counter : Z)
| Left (e : exn).

(** The [while True] loop from [counter], run over the given iterations;
    the snapshots are those handed to [websocket.send] successfully. *)
Fixpoint publish_loop (ticks : list tick) (counter : Z) : list metrics * loop_state :=
  match ticks with
  | [] => ([], Looping counter)
  | t :: rest =>
      match collect_metrics (tick_host t) (take_ss counter) with
      | Ok metrics =>
          if tick_send_ok t then
            let '(sent, st) := publish_loop rest (counter + 1) in
            (metrics :: sent, st)
          else ([], Left (Exn ConnectionClosed "send failed"))
      | Raise e => ([], Left e)
      end
  end.

(** The first frame of a session: [json.dumps({"secret": AGENT_SECRET})]. *)
Definition auth_payload : text :=
  json_dumps (JObj [("secret", JStr AGENT_SECRET)]).

(** *** Vocabulary of the properties *)

(** The processes whose information could be read. *)
Definition readable (iter : list (outcome pinfo)) : list pinfo :=
  omap (λ o, match o with Ok pinfo => Some pinfo | Raise _ => None end) iter.

(** [a] ranks before [b]: its cpu is not smaller. *)
Definition cpu_desc (a b : process) : Prop := (p_cpu b <= p_cpu a)%Q.

(** The snapshot has the key [screenshot]. *)
Definition has_screenshot (m : metrics) : bool :=
  match m_screenshot m with
  | Some _ => true
  | None => false
  end.


End Agent.

(** ** Concrete messages and hosts of the scenarios *)

Module Scenario.
Import Py Hub.

(** [{"secret": s}] *)
Definition handshake (s : string) : text :=
  Doc (JObj [("secret", JStr s)]).

(** [{"cpu": 12.3}] *)
Definition telemetry : json := JObj [("cpu", JFloat (123 # 10))].

(** [{"action": "kill", "pid": 4242}] *)
Definition kill_4242 : json := JObj [("action", JStr "kill"); ("pid", JInt 4242)].

(** Every transport but [dead] accepts sends. *)
Definition all_but (dead : WebSocket) (ws : WebSocket) : bool :=
  bool_decide (ws ≠ dead).

Definition everyone (ws : WebSocket) : bool := true.

(** A host on which every read succeeds but those of two processes, one
    gone and one protected; [grab] is the outcome of the screen capture. *)
Definition host_with (grab : outcome string) : Agent.host :=
  Agent.Host (Ok (123 # 10)) (Ok (405 # 10)) (Ok (5242880, 1048576))
    [Ok (Agent.PInfo 1 "init" "root" (5 # 10) (1 # 10));
     Raise (Exn NoSuchProcess "process no longer exists");
     Ok (Agent.PInfo 812 "python" "ops" (371 # 10) (42 # 10));
     Raise (Exn AccessDenied "access denied");
     Ok (Agent.PInfo 77 "sshd" "root" (20 # 10) (3 # 10))]
    grab "12:00:00" "2024-05-01T12:00:00".

(** The capture failure of a locked desktop. *)
Definition locked : outcome string := Raise (Exn OSError "screen grab failed").

(** An operating system on which process 4242 exists and can be
    terminated, and no other. *)
Definition only_4242 : Agent.os :=
  Agent.OS
    (λ pid, match pid with
            | JInt 4242 => Ok ()
            | _ => Raise (Exn NoSuchProcess "process not found")
            end)
    (λ _, Ok ()).

End Scenario.

(** ** The registry and the live connections *)

Module Registry.
Import Py Hub.

(** The transports the inputs open, in order. *)
Fixpoint opened (inputs : list input) : list WebSocket :=
  match inputs with
  | [] => []
  | Open _ ws _ :: rest => ws :: opened rest
  | Deliver _ _ :: rest => opened rest
  end.

(** Every registered transport belongs to an endpoint that is in its loop:
    an agent of [sid] to a [ws_agent] for [sid], a viewer of [sid] to a
    [ws_metrics] for [sid]. *)
Definition consistent (h : hub) : Prop :=
  (∀ sid ws, agent_connections (metrics_manager h) !! sid = Some ws →
     connections h !! ws = Some (Connection AgentEndpoint sid Streaming))
  ∧ (∀ sid ws, ws ∈ viewers sid (metrics_manager h) →
     connections h !! ws = Some (Connection ViewerEndpoint sid Streaming)).

(** The inputs open no transport twice, and none that is already known. *)
Definition fresh_opens (h : hub) (inputs : list input) : Prop :=
  NoDup (opened inputs) ∧ ∀ ws, ws ∈ opened inputs → connections h !! ws = None.

(** [m'] registers nothing that [m] does not. *)
Definition sub_registry (m' m : MetricsConnectionManager) : Prop :=
  (∀ sid ws, agent_connections m' !! sid = Some ws → agent_connections m !! sid = Some ws)
  ∧ (∀ sid ws, ws ∈ viewers sid m' → ws ∈ viewers sid m).

(** The transport is neither an agent nor a viewer of any server id. *)
Definition unregistered (ws : WebSocket) (m : MetricsConnectionManager) : Prop :=
  (∀ sid, agent_connections m !! sid ≠ Some ws) ∧ (∀ sid, ws ∉ viewers sid m).

End Registry.

(** ** The sessions of the agent: [run_agent] *)

Module Session.
Import Py Agent.

(** One pass of the outer loop of [run_agent] as the environment decides
    it: whether [websockets.connect] succeeds, whether the send of the
    handshake goes through, and the iterations of the publish loop. *)
Record attempt := Attempt {
  att_connect : outcome unit;
  att_auth_ok : bool;
  att_ticks : list tick
}.

(** What the agent does on the network and the clock.  The command task
    runs beside the publish loop; what it does to the host is the trace of
    [handle_commands] and is not part of this one. *)
Inductive action :=
| Connected
| SentAuth (t : text)
| SentMetrics (m : metrics)
| Slept (seconds : Z).

(** Each snapshot sent is followed by [asyncio.sleep(UPDATE_INTERVAL)]. *)
Definition frames (sent : list metrics) : list action :=
  flat_map (λ m, [SentMetrics m; Slept UPDATE_INTERVAL]) sent.

(** [run_agent] over the given attempts.  An exception that leaves the
    body of the [try] is followed by [asyncio.sleep(5)] and the next
    attempt; a publish loop that is still running ends the observation. *)
Fixpoint run_agent (attempts : list attempt) : list action :=
  match attempts with
  | [] => []
  | a :: rest =>
      match att_connect a with
      | Ok _ =>
          Connected ::
          (if att_auth_ok a then
             SentAuth auth_payload ::
             (let '(sent, st) := publish_loop (att_ticks a) 0 in
              frames sent ++
              match st with
              | Left _ => Slept 5 :: run_agent rest
              | Looping _ => []
              end)
           else Slept 5 :: run_agent rest)
      | Raise _ => Slept 5 :: run_agent rest
      end
  end.

(** *** Vocabulary of the properties: the protocol of a session *)

Inductive stage :=
| Offline
| Online
| Ready (n : nat)
| Pausing (n : nat).

(** [{"secret": AGENT_SECRET}] *)
Definition is_auth (t : text) : bool :=
  match t with
  | Doc (JObj [(k, JStr s)]) => String.eqb k "secret" && String.eqb s AGENT_SECRET
  | _ => false
  end.

(** The moves of the protocol: connect, authenticate, then snapshots three
    seconds apart, the one of tick [n] with a screenshot exactly when [n]
    is a multiple of 5; five seconds of pause before connecting again. *)
Definition move (st : stage) (a : action) : option stage :=
  match st, a with
  | Offline, Connected => Some Online
  | Offline, Slept 5 => Some Offline
  | Online, SentAuth t => if is_auth t then Some (Ready 0) else None
  | Online, Slept 5 => Some Offline
  | Ready n, SentMetrics m =>
      if bool_decide (has_screenshot m = bool_decide (n `mod` 5 = 0)%nat)
      then Some (Pausing n) else None
  | Ready n, Slept 5 => Some Offline
  | Pausing n, Slept 3 => Some (Ready (S n))
  | _, _ => None
  end.

Fixpoint follow (st : stage) (trace : list action) : option stage :=
  match trace with
  | [] => Some st
  | a :: rest =>
      match move st a with
      | Some st' => follow st' rest
      | None => None
      end
  end.

End Session.

(** ** Tokens and roles: [backend/app.py] *)

Module Auth.
Import Py.

(** What a dependency or a route answers: a value, an [HTTPException], or
    an exception that nothing catches. *)
Inductive response (A : Type) :=
| Return (a : A)
| HTTPException (status_code : Z) (detail : string)
| Uncaught (e : exn).
Global Arguments Return {A} a.
Global Arguments HTTPException {A} status_code detail.
Global Arguments Uncaught {A} e.

Definition ACCESS_TOKEN_EXPIRE_MINUTES : Z := 30.
Definition REFRESH_TOKEN_EXPIRE_DAYS : Z := 7.

(** [d[key] = v] on a dictionary kept in insertion order. *)
Fixpoint dict_set (key : string) (v : json) (fields : list (string * json))
    : list (string * json) :=
  match fields with
  | [] => [(key, v)]
  | (k, x) :: rest =>
      if String.eqb k key then (k, v) :: rest else (k, x) :: dict_set key v rest
  end.

(** Instants and durations in microseconds, the resolution of [datetime]
    and [timedelta]; a claim [exp] holds the instant. *)
Definition minutes (n : Z) : Z := 60000000 * n.
Definition days (n : Z) : Z := 86400000000 * n.

(** The claims [create_access_token] signs; [expires_delta or ...] takes
    the default also for a delta of zero, which is false. *)
Definition access_claims (data : list (string * json)) (now : Z) (expires_delta : option Z)
    : list (string * json) :=
  let delta :=
    match expires_delta with
    | Some d => if Z.eqb d 0 then minutes ACCESS_TOKEN_EXPIRE_MINUTES else d
    | None => minutes ACCESS_TOKEN_EXPIRE_MINUTES
    end in
  let expire := now + delta in
  dict_set "type" (JStr "access") (dict_set "exp" (JInt expire) data).

(** The claims [create_refresh_token] signs. *)
Definition refresh_claims (data : list (string * json)) (now : Z) : list (string * json) :=
  let expire := now + days REFRESH_TOKEN_EXPIRE_DAYS in
  dict_set "type" (JStr "refresh") (dict_set "exp" (JInt expire) data).

Record user := User {
  user_id : Z;
  user_role : json
}.

Section Dependencies.

(** [jwt.encode(claims, SECRET_KEY, algorithm=ALGORITHM)] *)
Variable jwt_encode : list (string * json) → string.
(** [jwt.decode(token, SECRET_KEY, algorithms=[ALGORITHM])], [None] when
    it raises [JWTError]. *)
Variable jwt_decode : string → option (list (string * json)).
(** [int(x)] *)
Variable int : json → outcome Z.

Definition create_access_token (data : list (string * json)) (now : Z)
    (expires_delta : option Z) : string :=
  jwt_encode (access_claims data now expires_delta).

Definition create_refresh_token (data : list (string * json)) (now : Z) : string :=
  jwt_encode (refresh_claims data now).

Definition decode_token (token : string) : response (list (string * json)) :=
  match jwt_decode token with
  | Some payload => Return payload
  | None => HTTPException 401 "Invalid token"
  end.

Definition get_current_user (token : string) : response user :=
  match decode_token token with
  | Return payload =>
      match default JNull (assoc "sub" payload) with
      | JNull => HTTPException 401 "Invalid token payload"
      | user_id =>
          match int user_id with
          | Ok n => Return (User n (default (JStr "viewer") (assoc "role" payload)))
          | Raise e => Uncaught e
          end
      end
  | HTTPException status_code detail => HTTPException status_code detail
  | Uncaught e => Uncaught e
  end.

End Dependencies.

(** [role in allowed_roles] *)
Definition role_in (role : json) (allowed_roles : list string) : bool :=
  match role with
  | JStr s => bool_decide (s ∈ allowed_roles)
  | _ => false
  end.

(** The [role_checker] that [require_role(allowed_roles)] returns, applied
    to the answer of [get_current_user]. *)
Definition require_role (allowed_roles : list string) (current_user : response user)
    : response user :=
  match current_user with
  | Return u =>
      if role_in (user_role u) allowed_roles then Return u
      else HTTPException 403 "Insufficient permissions"
  | other => other
  end.

(** The roles the routes that change servers ask for. *)
Definition create_server_roles : list string := ["admin"; "operator"].
Definition update_server_roles : list string := ["admin"; "operator"].
Definition delete_server_roles : list string := ["admin"].

End Auth.

(** ** The cached Redis client: [backend/app.py] *)

Module Redis.
Import Py.

(** A client object. *)
Definition client := nat.

(** What one call of [get_redis] finds: the outcome of
    [aioredis.from_url(...)] and of [ping()] on a client. *)
Record env := Env {
  from_url : outcome client;
  ping : client → outcome unit
}.

Inductive event :=
| FromUrl
| Ping (c : client).

(** [get_redis], on the global [redis_client]: the new value of the global,
    the value returned, and what was called. *)
Definition get_redis (e : env) (redis_client : option client)
    : option client * option client * list event :=
  match redis_client with
  | None =>
      match from_url e with
      | Ok c =>
          match ping e c with
          | Ok _ => (Some c, Some c, [FromUrl; Ping c])
          | Raise _ => (None, None, [FromUrl; Ping c])
          end
      | Raise _ => (None, None, [FromUrl])
      end
  | Some c => (Some c, Some c, [])
  end.

(** A run of calls, each in its own environment: the final global and,
    per call, what it returned and what it called. *)
Fixpoint get_redis_calls (es : list env) (redis_client : option client)
    : option client * list (option client * list event) :=
  match es with
  | [] => (redis_client, [])
  | e :: rest =>
      let '(redis_client, returned, evs) := get_redis e redis_client in
      let '(final, answers) := get_redis_calls rest redis_client in
      (final, (returned, evs) :: answers)
  end.

End Redis.

(** ** The enumeration of processes: [psutil.process_iter] *)

Module Enumeration.
Import Py Agent.

(** The dictionary [proc.info] that [psutil.process_iter(attrs)] has
    stored for a process before the loop body runs.  [process_iter] itself
    drops a process that is gone, and stores [None] for an attribute that
    [AccessDenied] or [ZombieProcess] kept it from reading. *)
Record stored := Stored {
  st_pid : Z;
  st_name : string;
  st_username : string;
  st_cpu_percent : option Q;
  st_memory_percent : option Q
}.

(** The body of the [try] of [get_processes] on such a dictionary, up to
    [round]: [round(None, 1)] raises [TypeError]. *)
Definition read_info (info : stored) : outcome pinfo :=
  match st_cpu_percent info with
  | Some cpu =>
      match st_memory_percent info with
      | Some mem => Ok (PInfo (st_pid info) (st_name info) (st_username info) cpu mem)
      | None => Raise (Exn TypeError "type NoneType doesn't define __round__ method")
      end
  | None => Raise (Exn TypeError "type NoneType doesn't define __round__ method")
  end.

(** An attribute of the process was denied. *)
Definition denied (info : stored) : Prop :=
  st_cpu_percent info = None ∨ st_memory_percent info = None.

(** Three processes, the cpu of the second being denied. *)
Definition one_denied : list stored :=
  [Stored 1 "init" "root" (Some (5 # 10)) (Some (1 # 10));
   Stored 4 "System" "SYSTEM" None (Some (2 # 10));
   Stored 812 "python" "ops" (Some (371 # 10)) (Some (42 # 10))].

End Enumeration.

(** ** Concrete tokens and sessions of the examples *)

Module Example.
Import Py Hub.

(** The data [login] signs for user 7, an administrator. *)
Definition token_data : list (string * json) :=
  [("sub", JStr "7"); ("role", JStr "admin")].

(** A token codec that knows two tokens: it writes a token as its type
    and reads the two types back as the claims made from [token_data] at
    instant 0. *)
Definition type_of_claims (claims : list (string * json)) : string :=
  match assoc "type" claims with
  | Some (JStr s) => s
  | _ => ""
  end.

Definition claims_of_type (token : string) : option (list (string * json)) :=
  if String.eqb token "access" then Some (Auth.access_claims token_data 0 None)
  else if String.eqb token "refresh" then Some (Auth.refresh_claims token_data 0)
  else if String.eqb token "anonymous" then Some [("sub", JStr "7")]
  else None.

(** [int] on the subject of [token_data] and on integers. *)
Definition int_of (v : json) : outcome Z :=
  match v with
  | JInt n => Ok n
  | JStr "7" => Ok 7
  | _ => Raise (Exn TypeError "int() argument")
  end.

(** A viewer and an agent connect for server 1 and the agent is accepted. *)
Definition accepted_agent : list input :=
  [Open ViewerEndpoint 2%nat 1;
   Open AgentEndpoint 1%nat 1;
   Deliver 1%nat (Message (Scenario.handshake (AGENT_SECRET settings)))].

End Example.

(** * Properties of the hub *)

Section HubProperties.
Import Py Hub.

Variable alive : WebSocket → bool.
Variable cfg : Settings.

Lemma secret_mismatch_false (t : text) :
  secret_mismatch cfg t = Ok false ↔ presents_secret t (AGENT_SECRET cfg).
Proof.
  unfold secret_mismatch, presents_secret. split.
  - destruct t as [s|v]; simpl; [discriminate|].
    destruct v; simpl; try discriminate.
    unfold ne_str, eq_str. destruct (assoc "secret" fields) as [[]|] eqn:E;
      simpl; try discriminate.
    intros H. exists fields. split; [done|].
    destruct (String.eqb s (AGENT_SECRET cfg)) eqn:Es; simpl in H; [|discriminate].
    apply String.eqb_eq in Es. by subst.
  - intros (fields & -> & E). simpl. rewrite E. simpl.
    unfold ne_str, eq_str. by rewrite String.eqb_refl.
Qed.

Lemma ws_agent_registers (websocket : WebSocket) (sid : Z) (t : text)
    (m : MetricsConnectionManager) :
  presents_secret t (AGENT_SECRET cfg) →
  ws_agent_step alive cfg websocket sid Handshake (Message t) m
  = ((connect_agent websocket sid m).1, Streaming, []).
Proof.
  intros H. apply secret_mismatch_false in H. simpl. by rewrite H.
Qed.

Lemma ws_agent_finished (websocket : WebSocket) (sid : Z) (r : recv)
    (m : MetricsConnectionManager) :
  ws_agent_step alive cfg websocket sid Finished r m = (m, Finished, []).
Proof. done. Qed.

(** C7. A first message that does not carry the configured secret (wrong
    secret, no secret, a secret that is no string, a document that is no
    object, or no JSON at all) makes [ws_agent] close the transport with
    code 4001 and return, leaving the registry as it was: the transport is
    not registered, and nothing delivered to it later registers it. *)
Theorem ws_agent_rejects_bad_handshake (websocket : WebSocket) (sid : Z) (t : text)
    (m : MetricsConnectionManager) :
  ¬ presents_secret t (AGENT_SECRET cfg) →
  ws_agent_step alive cfg websocket sid Handshake (Message t) m
    = (m, Finished, [Close websocket 4001])
  ∧ ∀ r m', ws_agent_step alive cfg websocket sid Finished r m' = (m', Finished, []).
Proof.
  intros H. split; [|done].
  simpl. destruct (secret_mismatch cfg t) as [[]|] eqn:E; try done.
  by apply secret_mismatch_false in E.
Qed.

(** [disconnect_agent] forgets whatever agent is registered. *)
Lemma disconnect_agent_lookup (sid sid' : Z) (m : MetricsConnectionManager) :
  agent_connections (disconnect_agent sid m) !! sid'
  = if decide (sid' = sid) then None else agent_connections m !! sid'.
Proof.
  unfold disconnect_agent. simpl. case_decide.
  - subst. apply lookup_delete_eq.
  - by apply lookup_delete_ne.
Qed.

(** C1, as the code has it. [disconnect_agent] is idempotent and removes
    the agent of the server id whichever transport is registered there; it
    touches no other server id and no viewer set.  The clean-up of
    [ws_agent] calls it for its server id without comparing transports. *)
Theorem disconnect_agent_unconditional (caller : WebSocket) (sid : Z)
    (m : MetricsConnectionManager) :
  disconnect_agent sid (disconnect_agent sid m) = disconnect_agent sid m
  ∧ (∀ sid', agent_connections (disconnect_agent sid m) !! sid'
             = if decide (sid' = sid) then None else agent_connections m !! sid')
  ∧ client_connections (disconnect_agent sid m) = client_connections m
  ∧ ws_agent_step alive cfg caller sid Streaming Disconnected m
    = (disconnect_agent sid m, Finished, []).
Proof.
  repeat split.
  - unfold disconnect_agent. simpl. f_equal. apply delete_delete_eq.
  - intros sid'. apply disconnect_agent_lookup.
Qed.

(** *** Broadcast *)

Lemma send_each_events (data : json) (targets : list WebSocket) (dead : gset WebSocket) :
  (send_each alive data targets dead).2
  = (λ ws, Send ws (json_dumps data) (alive ws)) <$> targets.
Proof.
  revert dead. induction targets as [|ws rest IH]; intros dead; simpl; [done|].
  specialize (IH (if alive ws then dead else dead ∪ {[ws]})).
  destruct (send_each alive data rest _) as [d evs]. simpl in *. by rewrite IH.
Qed.

Lemma send_each_dead (data : json) (targets : list WebSocket) (dead : gset WebSocket)
    (ws : WebSocket) :
  ws ∈ (send_each alive data targets dead).1
  ↔ ws ∈ dead ∨ (ws ∈ targets ∧ alive ws = false).
Proof.
  revert dead. induction targets as [|x rest IH]; intros dead; simpl.
  - set_solver.
  - specialize (IH (if alive x then dead else dead ∪ {[x]})).
    destruct (send_each alive data rest _) as [d evs]. simpl in *.
    rewrite IH. destruct (alive x) eqn:Hx.
    + split; [set_solver|]. intros [?|[[->|?]%elem_of_cons ?]]; [by left|congruence|set_solver].
    + split.
      * intros [[?| ->%elem_of_singleton]%elem_of_union|[? ?]]; set_solver.
      * intros [?|[[->|?]%elem_of_cons ?]]; set_solver.
Qed.

(** What one broadcast does, for a server id that has a viewer set. *)
Lemma broadcast_to_clients_some (sid : Z) (data : json) (m : MetricsConnectionManager)
    (V : gset WebSocket) :
  client_connections m !! sid = Some V →
  ∃ dead,
    broadcast_to_clients alive sid data m
    = (Manager (<[sid := V ∖ dead]> (client_connections m)) (agent_connections m),
       (λ ws, Send ws (json_dumps data) (alive ws)) <$> elements V)
    ∧ ∀ ws, ws ∈ dead ↔ ws ∈ V ∧ alive ws = false.
Proof.
  intros HV. unfold broadcast_to_clients. rewrite HV.
  pose proof (send_each_events data (elements V) ∅) as Hev.
  pose proof (send_each_dead data (elements V) ∅) as Hdead.
  destruct (send_each alive data (elements V) ∅) as [dead evs]. simpl in *.
  exists dead. split; [by rewrite Hev|].
  intros ws. rewrite Hdead, elem_of_elements. set_solver.
Qed.

Lemma broadcast_to_clients_agents (sid : Z) (data : json) (m : MetricsConnectionManager) :
  agent_connections (broadcast_to_clients alive sid data m).1 = agent_connections m.
Proof.
  unfold broadcast_to_clients. destruct (client_connections m !! sid) as [V|]; [|done].
  by destruct (send_each alive data (elements V) ∅).
Qed.

Lemma broadcast_to_clients_viewers (sid : Z) (data : json) (m : MetricsConnectionManager)
    (ws : WebSocket) :
  ws ∈ viewers sid (broadcast_to_clients alive sid data m).1
  ↔ ws ∈ viewers sid m ∧ alive ws = true.
Proof.
  unfold viewers. destruct (client_connections m !! sid) as [V|] eqn:HV.
  - destruct (broadcast_to_clients_some sid data m V HV) as (dead & -> & Hdead).
    simpl. rewrite lookup_insert_eq. simpl.
    rewrite elem_of_difference, Hdead. destruct (alive ws); naive_solver.
  - unfold broadcast_to_clients. rewrite HV. simpl. rewrite HV. set_solver.
Qed.

Lemma broadcast_to_clients_targets (sid : Z) (data : json) (m : MetricsConnectionManager)
    (ev : event) :
  ev ∈ (broadcast_to_clients alive sid data m).2 → event_ws ev ∈ viewers sid m.
Proof.
  unfold viewers. destruct (client_connections m !! sid) as [V|] eqn:HV.
  - destruct (broadcast_to_clients_some sid data m V HV) as (dead & -> & _).
    simpl. intros (ws & -> & Hws)%list_elem_of_fmap. simpl.
    by apply elem_of_elements.
  - unfold broadcast_to_clients. rewrite HV. simpl. by intros ?%elem_of_nil.
Qed.

Lemma attempts_on_one (f : WebSocket) (data : json) (l : list WebSocket) :
  NoDup l → f ∈ l →
  filter (λ ev, event_ws ev = f) ((λ ws, Send ws (json_dumps data) (alive ws)) <$> l)
  = [Send f (json_dumps data) (alive f)].
Proof.
  induction 1 as [|x l Hx Hnd IH]; [by intros ?%elem_of_nil|].
  intros Hf. simpl. rewrite filter_cons. simpl. case_decide as Hxf.
  - subst x. f_equal. clear IH Hf. induction l as [|y l IH]; [done|].
    simpl. rewrite filter_cons. simpl. rewrite decide_False by set_solver.
    apply IH; [set_solver|by inversion Hnd].
  - apply IH. set_solver.
Qed.

(** C5. One call of [broadcast_to_clients] for a server id that has a
    viewer whose send fails and a viewer whose send succeeds delivers the
    payload to the second, keeps it in the set, removes the first and has
    made exactly one send attempt on it; with no viewer for the server id
    the call does nothing. *)
Theorem broadcast_drops_failing_viewer (sid : Z) (payload : json)
    (m : MetricsConnectionManager) :
  (∀ (V : gset WebSocket) (f g : WebSocket),
     client_connections m !! sid = Some V →
     f ∈ V → g ∈ V → alive f = false → alive g = true →
     let r := broadcast_to_clients alive sid payload m in
     Send g (json_dumps payload) true ∈ (r.2)
     ∧ g ∈ viewers sid (r.1)
     ∧ (f ∉ viewers sid (r.1))
     ∧ filter (λ ev, event_ws ev = f) (r.2) = [Send f (json_dumps payload) false])
  ∧ (viewers sid m = ∅ → broadcast_to_clients alive sid payload m = (m, [])).
Proof.
  split.
  - intros V f g HV Hf Hg Af Ag r. subst r.
    assert (Hvf : f ∈ viewers sid m) by (unfold viewers; by rewrite HV).
    assert (Hvg : g ∈ viewers sid m) by (unfold viewers; by rewrite HV).
    repeat split.
    + destruct (broadcast_to_clients_some sid payload m V HV) as (dead & -> & _).
      simpl. apply list_elem_of_fmap. exists g. rewrite Ag.
      split; [done|by apply elem_of_elements].
    + apply broadcast_to_clients_viewers. done.
    + rewrite broadcast_to_clients_viewers. intros [_ ?]. congruence.
    + destruct (broadcast_to_clients_some sid payload m V HV) as (dead & -> & _).
      simpl. rewrite <- Af. apply attempts_on_one.
      * apply NoDup_elements.
      * by apply elem_of_elements.
  - unfold viewers, broadcast_to_clients. intros HV.
    destruct (client_connections m !! sid) as [V|] eqn:E; [|done].
    simpl in HV. subst V. rewrite elements_empty. simpl.
    destruct m as [cc ac]. simpl in *. f_equal. f_equal.
    rewrite difference_diag_L. by apply insert_id.
Qed.

(** *** Relay *)

Lemma relay_to_agent_targets (sid : Z) (data : text) (m : MetricsConnectionManager)
    (ev : event) :
  ev ∈ (relay_to_agent alive sid data m).2 →
  agent_connections m !! sid = Some (event_ws ev).
Proof.
  unfold relay_to_agent. destruct (nonempty data); [|by intros ?%elem_of_nil].
  destruct (json_loads data) as [msg|e]; [|by intros ?%elem_of_nil].
  destruct (agent_connections m !! sid) as [a|]; [|by intros ?%elem_of_nil].
  simpl. by intros ->%list_elem_of_singleton.
Qed.

Lemma serve_agents (sid : Z) (q : request) (m : MetricsConnectionManager) :
  agent_connections (serve alive sid q m).1 = agent_connections m.
Proof. destruct q; simpl; [apply broadcast_to_clients_agents|done]. Qed.

Lemma serve_viewers (sid : Z) (q : request) (m : MetricsConnectionManager) :
  viewers sid (serve alive sid q m).1 ⊆ viewers sid m.
Proof.
  destruct q; simpl; [|done].
  intros ws. rewrite broadcast_to_clients_viewers. tauto.
Qed.

Lemma serve_targets (sid : Z) (q : request) (m : MetricsConnectionManager) (ev : event) :
  ev ∈ (serve alive sid q m).2 →
  event_ws ev ∈ viewers sid m ∨ agent_connections m !! sid = Some (event_ws ev).
Proof.
  destruct q; simpl; intros H.
  - left. by eapply broadcast_to_clients_targets.
  - right. by eapply relay_to_agent_targets.
Qed.

Lemma serve_all_targets (sid : Z) (qs : list request) (m : MetricsConnectionManager)
    (ev : event) :
  ev ∈ (serve_all alive sid qs m).2 →
  event_ws ev ∈ viewers sid m ∨ agent_connections m !! sid = Some (event_ws ev).
Proof.
  revert m. induction qs as [|q qs IH]; intros m; simpl; [by intros ?%elem_of_nil|].
  pose proof (serve_agents sid q m) as Ha.
  pose proof (serve_viewers sid q m) as Hv.
  pose proof (serve_targets sid q m ev) as Ht.
  destruct (serve alive sid q m) as [m1 evs]. simpl in *.
  specialize (IH m1).
  destruct (serve_all alive sid qs m1) as [m2 evs']. simpl in *.
  intros [H|H]%elem_of_app; [by apply Ht|].
  destruct (IH H) as [H1|H1]; [left; by apply Hv|right; by rewrite <- Ha].
Qed.

(** C4. After two admissions for the same server id the registry holds the
    second transport there, and only it: a relay for the server id is sent
    to it, and no broadcast or relay that follows touches the first
    transport.  ([ws_agent] registers an admitted transport with the same
    update as [connect_agent].) *)
Theorem second_agent_supersedes_first (sid : Z) (t1 t2 : WebSocket)
    (m : MetricsConnectionManager) :
  let m2 := (connect_agent t2 sid (connect_agent t1 sid m).1).1 in
  agent_connections m2 !! sid = Some t2
  ∧ (∀ (msg : json), (relay_to_agent alive sid (json_dumps msg) m2).2
                     = [Send t2 (json_dumps msg) (alive t2)])
  ∧ (t1 ≠ t2 → t1 ∉ viewers sid m →
     ∀ qs ev, ev ∈ (serve_all alive sid qs m2).2 → event_ws ev ≠ t1)
  ∧ (∀ ws h m0, presents_secret h (AGENT_SECRET cfg) →
       (ws_agent_step alive cfg ws sid Handshake (Message h) m0).1.1
       = (connect_agent ws sid m0).1).
Proof.
  simpl. repeat split.
  - apply lookup_insert_eq.
  - intros msg. unfold relay_to_agent. simpl. by rewrite lookup_insert_eq.
  - intros Hne Hv qs ev Hev Heq.
    apply serve_all_targets in Hev. simpl in Hev. rewrite lookup_insert_eq in Hev.
    destruct Hev as [H|H]; [|congruence].
    apply Hv. by rewrite <- Heq.
  - intros ws h m0 Hh. apply secret_mismatch_false in Hh. by rewrite Hh.
Qed.

(** C6, as the code has it. The loop body of [ws_metrics] decodes the
    received string before it looks for the agent.  A JSON document of any
    shape is forwarded, re-encoded, to the registered agent, and without
    an agent nothing is sent, nothing is raised and the registry stays as
    it is; the empty string is skipped; a string that is no JSON raises the
    decode error, nothing is sent and the endpoint leaves its loop,
    removing the viewer. *)
Theorem relay_forwards_json_documents (viewer : WebSocket) (sid : Z)
    (m : MetricsConnectionManager) :
  (∀ agent msg,
     agent_connections m !! sid = Some agent →
     (relay_to_agent alive sid (Doc msg) m).2 = [Send agent (json_dumps msg) (alive agent)])
  ∧ (∀ msg,
     agent_connections m !! sid = None →
     relay_to_agent alive sid (Doc msg) m = (Ok (), [])
     ∧ ws_metrics_step alive viewer sid Streaming (Message (Doc msg)) m = (m, Streaming, []))
  ∧ ws_metrics_step alive viewer sid Streaming (Message (Raw "")) m = (m, Streaming, [])
  ∧ (∀ s, s ≠ "" →
     relay_to_agent alive sid (Raw s) m = (Raise (Exn JSONDecodeError s), [])
     ∧ ws_metrics_step alive viewer sid Streaming (Message (Raw s)) m
       = (disconnect_client viewer sid m, Finished, [])).
Proof.
  split; [|split; [|split]].
  - intros agent msg Ha. unfold relay_to_agent. simpl. by rewrite Ha.
  - intros msg Ha. unfold ws_metrics_step, relay_to_agent. simpl. by rewrite Ha.
  - done.
  - intros s Hs. unfold ws_metrics_step, relay_to_agent. simpl.
    destruct (String.eqb s "") eqn:E; [by apply String.eqb_eq in E|done].
Qed.

End HubProperties.

Import Py Hub Scenario.

Lemma ws_agent_rejects_bad_handshake_witness :
  ¬ presents_secret (handshake "bad") (AGENT_SECRET settings)
  ∧ ws_agent_step everyone settings 1%nat 7 Handshake (Message (handshake "bad")) empty_manager
    = (empty_manager, Finished, [Close 1%nat 4001]).
Proof.
  assert (H : ¬ presents_secret (handshake "bad") (AGENT_SECRET settings)).
  { intros (fields & [= <-] & E). discriminate E. }
  split; [exact H|].
  exact (proj1 (ws_agent_rejects_bad_handshake everyone settings 1%nat 7 _ empty_manager H)).
Defined.

(** Scenario A on the whole hub: the rejected agent is closed with 4001
    and the registry holds no agent. *)
Example scenario_A :
  hub_run everyone settings initial_hub
    [Open AgentEndpoint 1%nat 7; Deliver 1%nat (Message (handshake "bad"))]
  = (HubState empty_manager {[1%nat := Connection AgentEndpoint 7 Finished]},
     [Accept 1%nat; Close 1%nat 4001]).
Proof. by vm_compute. Qed.

(** C1, refuted as stated. Transport 1 is admitted for server 7, transport
    2 supersedes it, then transport 1 disconnects: its clean-up removes
    transport 2 from the registry. *)
Lemma stale_disconnect_evicts_newer_agent :
  let superseded :=
    (hub_run everyone settings initial_hub
       [Open AgentEndpoint 1%nat 7;
        Deliver 1%nat (Message (handshake (AGENT_SECRET settings)));
        Open AgentEndpoint 2%nat 7;
        Deliver 2%nat (Message (handshake (AGENT_SECRET settings)))]).1 in
  let after := (hub_step everyone settings superseded (Deliver 1%nat Disconnected)).1 in
  agent_connections (metrics_manager superseded) !! 7 = Some 2%nat
  ∧ agent_connections (metrics_manager after) !! 7 ≠ Some 2%nat.
Proof. split; [by vm_compute|]. vm_compute. discriminate. Qed.

(** C3, at the failing input. With the hub's default settings the
    handshake the agent sends, [{"secret": "dev-secret-key-change-me"}], is
    answered by closing with 4001: no agent is registered and the
    telemetry that follows reaches no viewer. *)
Theorem default_settings_reject_agent_secret :
  Agent.auth_payload = handshake "dev-secret-key-change-me"
  ∧ hub_run everyone settings initial_hub
      [Open ViewerEndpoint 2%nat 1;
       Open AgentEndpoint 1%nat 1;
       Deliver 1%nat (Message Agent.auth_payload);
       Deliver 1%nat (Message (Doc telemetry))]
    = (HubState (Manager {[1 := {[2%nat]}]} ∅)
         {[1%nat := Connection AgentEndpoint 1 Finished;
           2%nat := Connection ViewerEndpoint 1 Streaming]},
       [Accept 2%nat; Accept 1%nat; Close 1%nat 4001]).
Proof. split; [done|]. by vm_compute. Qed.

(** Scenario B once the hub is configured with the agent's secret: the
    agent is admitted and the one viewer receives the telemetry. *)
Lemma scenario_B_with_matching_secret :
  hub_run everyone {| AGENT_SECRET := Agent.AGENT_SECRET |} initial_hub
    [Open ViewerEndpoint 2%nat 1;
     Open AgentEndpoint 1%nat 1;
     Deliver 1%nat (Message Agent.auth_payload);
     Deliver 1%nat (Message (Doc telemetry))]
  = (HubState (Manager {[1 := {[2%nat]}]} {[1 := 1%nat]})
       {[1%nat := Connection AgentEndpoint 1 Streaming;
         2%nat := Connection ViewerEndpoint 1 Streaming]},
     [Accept 2%nat; Accept 1%nat; Send 2%nat (Doc telemetry) true]).
Proof. by vm_compute. Qed.

(** C6, refuted as stated. A payload that is no JSON is not forwarded to
    the registered agent: the decode error is raised and nothing is sent;
    and with no agent registered the same payload ends the viewer's
    endpoint, which removes the viewer from the registry. *)
Lemma relay_of_non_json_payload :
  let with_agent := Manager {[1 := {[2%nat]}]} {[1 := 1%nat]} in
  let without_agent := Manager {[1 := {[2%nat]}]} ∅ in
  relay_to_agent everyone 1 (Raw "kill 4242") with_agent
    = (Raise (Exn JSONDecodeError "kill 4242"), [])
  ∧ (ws_metrics_step everyone 2%nat 1 Streaming (Message (Raw "kill 4242")) without_agent).1.1
    ≠ without_agent.
Proof.
  split; [done|]. intros H.
  apply (f_equal (λ m, client_connections m !! 1)) in H.
  vm_compute in H. discriminate H.
Qed.

Lemma relay_forwards_json_documents_witness :
  let with_agent := Manager {[1 := {[2%nat]}]} {[1 := 1%nat]} in
  let without_agent := Manager {[1 := {[2%nat]}]} ∅ in
  agent_connections with_agent !! 1 = Some 1%nat
  ∧ (relay_to_agent everyone 1 (Doc kill_4242) with_agent).2
    = [Send 1%nat (json_dumps kill_4242) true]
  ∧ agent_connections without_agent !! 1 = None
  ∧ ws_metrics_step everyone 2%nat 1 Streaming (Message (Doc kill_4242)) without_agent
    = (without_agent, Streaming, [])
  ∧ "kill 4242" ≠ ""
  ∧ ws_metrics_step everyone 2%nat 1 Streaming (Message (Raw "kill 4242")) without_agent
    = (disconnect_client 2%nat 1 without_agent, Finished, []).
Proof.
  intros with_agent without_agent.
  assert (H1 : agent_connections with_agent !! 1 = Some 1%nat) by (by vm_compute).
  assert (H2 : agent_connections without_agent !! 1 = None) by (by vm_compute).
  assert (H3 : "kill 4242" ≠ "") by discriminate.
  split; [exact H1|]. split.
  { exact (proj1 (relay_forwards_json_documents everyone 2%nat 1 with_agent)
             1%nat kill_4242 H1). }
  split; [exact H2|]. split.
  { exact (proj2 (proj1 (proj2
             (relay_forwards_json_documents everyone 2%nat 1 without_agent))
             kill_4242 H2)). }
  split; [exact H3|].
  exact (proj2 (proj2 (proj2 (proj2
           (relay_forwards_json_documents everyone 2%nat 1 without_agent)))
           "kill 4242" H3)).
Defined.

Lemma broadcast_drops_failing_viewer_witness :
  let m := Manager {[7 := {[1%nat; 2%nat]}]} ∅ in
  let r := broadcast_to_clients (all_but 1%nat) 7 telemetry m in
  client_connections m !! 7 = Some {[1%nat; 2%nat]}
  ∧ 1%nat ∈ ({[1%nat; 2%nat]} : gset WebSocket)
  ∧ 2%nat ∈ ({[1%nat; 2%nat]} : gset WebSocket)
  ∧ all_but 1%nat 1%nat = false
  ∧ all_but 1%nat 2%nat = true
  ∧ Send 2%nat (json_dumps telemetry) true ∈ r.2
  ∧ 2%nat ∈ viewers 7 (r.1)
  ∧ (1%nat ∉ viewers 7 (r.1))
  ∧ filter (λ ev, event_ws ev = 1%nat) (r.2) = [Send 1%nat (json_dumps telemetry) false]
  ∧ viewers 7 empty_manager = ∅
  ∧ broadcast_to_clients (all_but 1%nat) 7 telemetry empty_manager = (empty_manager, []).
Proof.
  intros m r.
  assert (H0 : client_connections m !! 7 = Some {[1%nat; 2%nat]}) by (by vm_compute).
  assert (H1 : 1%nat ∈ ({[1%nat; 2%nat]} : gset WebSocket)) by (by vm_compute).
  assert (H2 : 2%nat ∈ ({[1%nat; 2%nat]} : gset WebSocket)) by (by vm_compute).
  assert (H3 : viewers 7 empty_manager = ∅) by (by vm_compute).
  pose proof (proj1 (broadcast_drops_failing_viewer (all_but 1%nat) 7 telemetry m)
                _ 1%nat 2%nat H0 H1 H2 eq_refl eq_refl) as (Ha & Hb & Hc & Hd).
  pose proof (proj2 (broadcast_drops_failing_viewer (all_but 1%nat) 7 telemetry empty_manager)
                H3) as He.
  repeat (split; [assumption || reflexivity|]). exact He.
Defined.

Lemma second_agent_supersedes_first_witness :
  let m := Manager {[7 := {[3%nat]}]} ∅ in
  let m2 := (connect_agent 2%nat 7 (connect_agent 1%nat 7 m).1).1 in
  1%nat ≠ 2%nat
  ∧ (1%nat ∉ viewers 7 m)
  ∧ (∀ qs ev, ev ∈ (serve_all everyone 7 qs m2).2 → event_ws ev ≠ 1%nat)
  ∧ presents_secret (handshake (AGENT_SECRET settings)) (AGENT_SECRET settings)
  ∧ (ws_agent_step everyone settings 2%nat 7 Handshake
       (Message (handshake (AGENT_SECRET settings))) (connect_agent 1%nat 7 m).1).1.1
    = m2.
Proof.
  intros m m2.
  assert (H1 : 1%nat ≠ 2%nat) by discriminate.
  assert (H2 : 1%nat ∉ viewers 7 m) by (by vm_compute).
  assert (H3 : presents_secret (handshake (AGENT_SECRET settings)) (AGENT_SECRET settings)).
  { eexists. split; reflexivity. }
  pose proof (second_agent_supersedes_first everyone settings 7 1%nat 2%nat m)
    as (_ & _ & Hc & Hd).
  split; [exact H1|]. split; [exact H2|]. split; [exact (Hc H1 H2)|].
  split; [exact H3|]. exact (Hd 2%nat _ _ H3).
Defined.

(** * Properties of the agent *)

Section AgentProperties.
Import Agent.

(** *** The process list *)

Lemma gather_readable (iter : list (outcome pinfo)) (procs : list process) :
  (∀ e, Raise e ∈ iter → skipped e = true) →
  gather iter procs = Ok (procs ++ (entry <$> readable iter)).
Proof.
  revert procs. induction iter as [|[pinfo|e] rest IH]; intros procs H; simpl.
  - by rewrite app_nil_r.
  - rewrite IH by (intros e He; apply H; by right).
    unfold readable. simpl. by rewrite <- app_assoc.
  - rewrite (H e) by left. apply IH. intros e' He'. apply H. by right.
Qed.

Lemma gather_raises (iter : list (outcome pinfo)) (procs : list process) (e : exn) :
  Raise e ∈ iter → skipped e = false → ∃ e', gather iter procs = Raise e'.
Proof.
  revert procs. induction iter as [|[pinfo|e0] rest IH]; intros procs Hin He; simpl.
  - by apply elem_of_nil in Hin.
  - apply elem_of_cons in Hin as [?|Hin]; [done|]. by apply IH.
  - destruct (skipped e0) eqn:E0; [|by eexists].
    apply elem_of_cons in Hin as [[= ->]|Hin]; [congruence|by apply IH].
Qed.

Lemma insert_desc_perm (x : process) (l : list process) :
  insert_desc x l ≡ₚ x :: l.
Proof.
  induction l as [|y l IH]; simpl; [done|].
  destruct (Qle_bool (p_cpu y) (p_cpu x)); [done|].
  rewrite IH. apply Permutation_swap.
Qed.

Lemma cpu_desc_total (a b : process) :
  Qle_bool (p_cpu b) (p_cpu a) = false → cpu_desc b a.
Proof.
  intros H. unfold cpu_desc. apply Qlt_le_weak, Qnot_le_lt.
  intros Hle. apply Qle_bool_iff in Hle. congruence.
Qed.

Lemma insert_desc_sorted (x : process) (l : list process) :
  StronglySorted cpu_desc l → StronglySorted cpu_desc (insert_desc x l).
Proof.
  induction 1 as [|y l Hl IH Hy]; simpl.
  - repeat constructor.
  - destruct (Qle_bool (p_cpu y) (p_cpu x)) eqn:E.
    + apply Qle_bool_iff in E. constructor; [by constructor|].
      constructor; [exact E|].
      eapply Forall_impl; [exact Hy|]. intros z Hz. unfold cpu_desc in *.
      by eapply Qle_trans.
    + constructor; [exact IH|].
      rewrite insert_desc_perm. constructor; [|exact Hy].
      by apply cpu_desc_total.
Qed.

Lemma sorted_desc_perm (procs : list process) : sorted_desc procs ≡ₚ procs.
Proof.
  induction procs as [|x l IH]; simpl; [done|].
  by rewrite insert_desc_perm, IH.
Qed.

Lemma sorted_desc_sorted (procs : list process) :
  StronglySorted cpu_desc (sorted_desc procs).
Proof.
  induction procs as [|x l IH]; simpl; [constructor|].
  by apply insert_desc_sorted.
Qed.

(** The ranking of [get_processes].  When every process that cannot be
    read fails in the body of the [try] with one of the exceptions the
    [except] clause names, [get_processes] raises nothing and returns the
    processes that could be read, ranked by cpu, highest first, and cut
    after the twentieth: the result is sorted, has at most 20 entries, and
    with the entries left out forms the list of the readable processes,
    none of those left out having more cpu than one that is returned. *)
Theorem get_processes_top_twenty (iter : list (outcome pinfo)) :
  (∀ e, Raise e ∈ iter → exn_cls e ∈ [NoSuchProcess; AccessDenied; ZombieProcess]) →
  ∃ procs rest,
    get_processes iter = Ok procs
    ∧ (length procs ≤ 20)%nat
    ∧ StronglySorted cpu_desc procs
    ∧ procs ++ rest ≡ₚ entry <$> readable iter
    ∧ (∀ a b, a ∈ procs → b ∈ rest → cpu_desc a b)
    ∧ (rest ≠ [] → length procs = 20%nat).
Proof.
  intros H.
  assert (Hs : ∀ e, Raise e ∈ iter → skipped e = true).
  { intros e He. specialize (H e He). unfold skipped.
    repeat (apply elem_of_cons in H as [->|H]; [done|]). by apply elem_of_nil in H. }
  set (ranked := sorted_desc (entry <$> readable iter)).
  exists (take 20 ranked), (drop 20 ranked).
  pose proof (sorted_desc_sorted (entry <$> readable iter)) as Hsorted.
  fold ranked in Hsorted. rewrite <- (take_drop 20 ranked) in Hsorted.
  split; [|split; [|split; [|split; [|split]]]].
  - unfold get_processes. by rewrite gather_readable.
  - rewrite length_take. lia.
  - by eapply StronglySorted_app_1_l.
  - rewrite take_drop. apply sorted_desc_perm.
  - intros a b Ha Hb. by eapply StronglySorted_app_1_elem_of.
  - intros Hrest. rewrite length_take. apply Nat.min_l.
    destruct (decide (20 ≤ length ranked)%nat) as [|Hn]; [done|].
    exfalso. apply Hrest. apply drop_ge. lia.
Qed.

(** *** The snapshot *)

Lemma capture_screen_failure (e : exn) :
  shot_data (capture_screen (Raise e)) = None
  ∧ shot_status (capture_screen (Raise e)) ∈ ["locked"; "error"]
  ∧ is_Some (shot_error (capture_screen (Raise e))).
Proof.
  simpl. destruct (_ || _); simpl; repeat split; eauto; set_solver.
Qed.

Lemma collect_metrics_screenshot (h : host) (include_screenshot : bool) (m : metrics) :
  collect_metrics h include_screenshot = Ok m →
  m_screenshot m
  = if include_screenshot then Some (capture_screen (host_grab h)) else None.
Proof.
  unfold collect_metrics.
  destruct (host_cpu_percent h); [|done].
  destruct (host_virtual_memory h); [|done].
  destruct (host_net_io_counters h); [|done]. simpl.
  destruct (get_processes (host_process_iter h)); [|done]. simpl.
  destruct include_screenshot; by intros [= <-].
Qed.

(** C2, as the code has it. [collect_metrics] absorbs the failures that
    [capture_screen] and the loop of [get_processes] catch: with the cpu,
    memory and network reads succeeding and every unreadable process
    failing with a caught exception, it returns a snapshot with all its
    fields, the unreadable processes left out and, when a screenshot is
    asked for and the capture fails, a null screenshot with status
    [locked] or [error].  An exception of the cpu, memory or network read
    leaves [collect_metrics]. *)
Theorem collect_metrics_degrades_caught_failures (h : host) (include_screenshot : bool) :
  (∀ cpu ram net,
     host_cpu_percent h = Ok cpu →
     host_virtual_memory h = Ok ram →
     host_net_io_counters h = Ok net →
     (∀ e, Raise e ∈ host_process_iter h → skipped e = true) →
     ∃ m,
       collect_metrics h include_screenshot = Ok m
       ∧ m_cpu m = cpu ∧ m_ram m = ram
       ∧ m_net_rx m = round (inject_Z net.1 / 1024 / 1024) 2
       ∧ m_net_tx m = round (inject_Z net.2 / 1024 / 1024) 2
       ∧ m_processes m = take 20 (sorted_desc (entry <$> readable (host_process_iter h)))
       ∧ m_status m = "online"
       ∧ m_screenshot m
         = (if include_screenshot then Some (capture_screen (host_grab h)) else None)
       ∧ (∀ e, host_grab h = Raise e →
            shot_data (capture_screen (host_grab h)) = None
            ∧ shot_status (capture_screen (host_grab h)) ∈ ["locked"; "error"]))
  ∧ (∀ e, host_cpu_percent h = Raise e → collect_metrics h include_screenshot = Raise e)
  ∧ (∀ cpu e, host_cpu_percent h = Ok cpu → host_virtual_memory h = Raise e →
       collect_metrics h include_screenshot = Raise e)
  ∧ (∀ cpu ram e, host_cpu_percent h = Ok cpu → host_virtual_memory h = Ok ram →
       host_net_io_counters h = Raise e →
       collect_metrics h include_screenshot = Raise e).
Proof.
  unfold collect_metrics. split; [|split; [|split]].
  - intros cpu ram net -> -> -> Hp. simpl.
    unfold get_processes. rewrite (gather_readable _ [] Hp). simpl.
    assert (Hg : ∀ e, host_grab h = Raise e →
              shot_data (capture_screen (host_grab h)) = None
              ∧ shot_status (capture_screen (host_grab h)) ∈ ["locked"; "error"]).
    { intros e ->. split; apply capture_screen_failure. }
    destruct include_screenshot; eexists; split_and!; try reflexivity; exact Hg.
  - by intros e ->.
  - by intros cpu e -> ->.
  - by intros cpu ram e -> -> ->.
Qed.

(** *** The publish loop *)

Lemma publish_loop_sent (ticks : list tick) (counter : Z) (i : nat) (m : metrics) :
  (publish_loop ticks counter).1 !! i = Some m →
  ∃ t, ticks !! i = Some t
       ∧ collect_metrics (tick_host t) (take_ss (counter + Z.of_nat i)) = Ok m.
Proof.
  revert counter i. induction ticks as [|t rest IH]; intros counter i; simpl; [done|].
  destruct (collect_metrics (tick_host t) (take_ss counter)) as [m0|e] eqn:E; [|done].
  destruct (tick_send_ok t); [|done].
  specialize (IH (counter + 1)).
  destruct (publish_loop rest (counter + 1)) as [sent st]. simpl in *.
  destruct i as [|i]; simpl.
  - intros [= <-]. exists t. split; [done|]. by rewrite Z.add_0_r.
  - intros H. destruct (IH i H) as (t' & Ht' & Hm). exists t'. split; [done|].
    by replace (counter + Z.of_nat (S i)) with (counter + 1 + Z.of_nat i) by lia.
Qed.



(** *** The command executor *)

(** C10. A kill command whose [pid] is missing, null or 0 passes the test
    [if pid:] as false: nothing is printed, no process handle is created,
    nothing is terminated, and [handle_commands] goes on with the next
    message. *)
Theorem kill_without_pid_is_ignored (sys : os) (fields : list (string * json))
    (rest : list text) :
  assoc "action" fields = Some (JStr "kill") →
  assoc "pid" fields = None ∨ assoc "pid" fields = Some JNull
    ∨ assoc "pid" fields = Some (JInt 0) →
  handle_command sys (Doc (JObj fields)) = []
  ∧ handle_commands sys (Doc (JObj fields) :: rest) = handle_commands sys rest.
Proof.
  intros Ha Hp.
  assert (H : handle_command sys (Doc (JObj fields)) = []).
  { unfold handle_command. simpl. rewrite Ha. simpl.
    by destruct Hp as [-> | [-> | ->]]. }
  split; [exact H|]. simpl. by rewrite H.
Qed.

(** A kill command with a pid that is true creates the process handle. *)
Lemma kill_with_pid_is_executed (sys : os) (fields : list (string * json)) (pid : json) :
  assoc "action" fields = Some (JStr "kill") →
  assoc "pid" fields = Some pid → truthy pid = true →
  NewProcess pid ∈ handle_command sys (Doc (JObj fields)).
Proof.
  intros Ha Hp Ht. unfold handle_command. simpl. rewrite Ha, Hp. simpl. rewrite Ht.
  unfold kill. set_solver.
Qed.

End AgentProperties.

Import Agent.

Lemma host_with_failures_are_skipped (grab : outcome string) (e : exn) :
  Raise e ∈ host_process_iter (host_with grab) →
  exn_cls e ∈ [NoSuchProcess; AccessDenied; ZombieProcess].
Proof.
  simpl. intros H.
  repeat (apply elem_of_cons in H as [H|H];
          [first [discriminate H | injection H as ->; simpl; set_solver]|]).
  by apply elem_of_nil in H.
Qed.

Lemma get_processes_top_twenty_witness :
  (∀ e, Raise e ∈ host_process_iter (host_with locked) →
        exn_cls e ∈ [NoSuchProcess; AccessDenied; ZombieProcess])
  ∧ ∃ procs rest,
      get_processes (host_process_iter (host_with locked)) = Ok procs
      ∧ (length procs ≤ 20)%nat
      ∧ StronglySorted cpu_desc procs
      ∧ procs ++ rest ≡ₚ entry <$> readable (host_process_iter (host_with locked))
      ∧ (∀ a b, a ∈ procs → b ∈ rest → cpu_desc a b)
      ∧ (rest ≠ [] → length procs = 20%nat).
Proof.
  split; [exact (host_with_failures_are_skipped locked)|].
  exact (get_processes_top_twenty _ (host_with_failures_are_skipped locked)).
Defined.

(** The process list of the example host: the two unreadable processes
    are left out and the others are ranked by cpu. *)
Example get_processes_example :
  p_pid <$> default [] (match get_processes (host_process_iter (host_with locked)) with
                        | Ok procs => Some procs
                        | Raise _ => None
                        end)
  = [812; 77; 1].
Proof. by vm_compute. Qed.

(** C2, refuted as stated. A cpu read that raises is not degraded to an
    absent field: the exception leaves [collect_metrics] and no snapshot
    is returned; the same holds for a process whose information raises an
    exception other than the three that are caught. *)
Lemma uncaught_read_failures_abort_the_snapshot :
  let no_cpu :=
    Host (Raise (Exn OSError "cpu times unavailable")) (Ok (405 # 10)) (Ok (5242880, 1048576))
      [] (Ok "AAAA") "12:00:00" "2024-05-01T12:00:00" in
  let odd_process :=
    Host (Ok (123 # 10)) (Ok (405 # 10)) (Ok (5242880, 1048576))
      [Raise (Exn TypeError "type NoneType doesn't define __round__ method")]
      (Ok "AAAA") "12:00:00" "2024-05-01T12:00:00" in
  collect_metrics no_cpu false = Raise (Exn OSError "cpu times unavailable")
  ∧ collect_metrics odd_process false
    = Raise (Exn TypeError "type NoneType doesn't define __round__ method").
Proof. split; reflexivity. Qed.

Lemma collect_metrics_degrades_caught_failures_witness :
  host_cpu_percent (host_with locked) = Ok (123 # 10)
  ∧ host_virtual_memory (host_with locked) = Ok (405 # 10)
  ∧ host_net_io_counters (host_with locked) = Ok (5242880, 1048576)
  ∧ (∀ e, Raise e ∈ host_process_iter (host_with locked) → skipped e = true)
  ∧ ∃ m,
      collect_metrics (host_with locked) true = Ok m
      ∧ m_cpu m = (123 # 10) ∧ m_ram m = (405 # 10)
      ∧ m_net_rx m = round (inject_Z (5242880, 1048576).1 / 1024 / 1024) 2
      ∧ m_net_tx m = round (inject_Z (5242880, 1048576).2 / 1024 / 1024) 2
      ∧ m_processes m
        = take 20 (sorted_desc (entry <$> readable (host_process_iter (host_with locked))))
      ∧ m_status m = "online"
      ∧ m_screenshot m = Some (capture_screen (host_grab (host_with locked)))
      ∧ (∀ e, host_grab (host_with locked) = Raise e →
           shot_data (capture_screen (host_grab (host_with locked))) = None
           ∧ shot_status (capture_screen (host_grab (host_with locked))) ∈ ["locked"; "error"]).
Proof.
  assert (H : ∀ e, Raise e ∈ host_process_iter (host_with locked) → skipped e = true).
  { intros e He. apply host_with_failures_are_skipped in He. unfold skipped.
    repeat (apply elem_of_cons in He as [->|He]; [done|]). by apply elem_of_nil in He. }
  split; [reflexivity|]. split; [reflexivity|]. split; [reflexivity|]. split; [exact H|].
  exact (proj1 (collect_metrics_degrades_caught_failures (host_with locked) true)
           _ _ _ eq_refl eq_refl eq_refl H).
Defined.



Lemma kill_without_pid_is_ignored_witness :
  let fields := [("action", JStr "kill"); ("pid", JInt 0)] in
  assoc "action" fields = Some (JStr "kill")
  ∧ (assoc "pid" fields = None ∨ assoc "pid" fields = Some JNull
     ∨ assoc "pid" fields = Some (JInt 0))
  ∧ handle_command only_4242 (Doc (JObj fields)) = []
  ∧ handle_commands only_4242 [Doc (JObj fields); Doc kill_4242]
    = handle_commands only_4242 [Doc kill_4242].
Proof.
  intros fields.
  assert (H1 : assoc "action" fields = Some (JStr "kill")) by reflexivity.
  assert (H2 : assoc "pid" fields = None ∨ assoc "pid" fields = Some JNull
               ∨ assoc "pid" fields = Some (JInt 0)) by (right; right; reflexivity).
  split; [exact H1|]. split; [exact H2|].
  exact (kill_without_pid_is_ignored only_4242 fields [Doc kill_4242] H1 H2).
Defined.

(** The three shapes of a kill command without a usable pid, and one with
    a pid, on a host where process 4242 runs. *)
Example handle_commands_example :
  handle_commands only_4242
    [Doc (JObj [("action", JStr "kill")]);
     Doc (JObj [("action", JStr "kill"); ("pid", JNull)]);
     Doc (JObj [("action", JStr "kill"); ("pid", JInt 0)]);
     Doc kill_4242]
  = [Printed (KillReceived (JInt 4242)); NewProcess (JInt 4242);
     Terminate (JInt 4242); Printed (KillDone (JInt 4242))].
Proof. reflexivity. Qed.

(** * Further properties of the hub *)

Section RegistryProperties.
Import Py Hub Registry.

Variable alive : WebSocket → bool.
Variable cfg : Settings.

Lemma viewers_connect_client (ws : WebSocket) (sid sid' : Z) (m : MetricsConnectionManager) :
  viewers sid' (connect_client ws sid m).1
  = if decide (sid' = sid) then viewers sid m ∪ {[ws]} else viewers sid' m.
Proof.
  unfold viewers, connect_client. simpl.
  destruct (decide (is_Some (client_connections m !! sid))) as [[V HV]|Hn].
  - destruct (decide (sid' = sid)) as [->|Hs].
    + by rewrite lookup_insert_eq, HV.
    + by rewrite lookup_insert_ne.
  - apply eq_None_not_Some in Hn.
    destruct (decide (sid' = sid)) as [->|Hs].
    + rewrite !lookup_insert_eq, Hn. done.
    + by rewrite !lookup_insert_ne.
Qed.

Lemma viewers_disconnect_client (ws : WebSocket) (sid sid' : Z) (m : MetricsConnectionManager) :
  viewers sid' (disconnect_client ws sid m)
  = if decide (sid' = sid) then viewers sid m ∖ {[ws]} else viewers sid' m.
Proof.
  unfold viewers, disconnect_client.
  destruct (decide (sid' = sid)) as [->|Hs].
  - destruct (client_connections m !! sid) as [V|] eqn:E; simpl.
    + case_decide as He; simpl.
      * by rewrite lookup_delete_eq, He.
      * by rewrite lookup_insert_eq.
    + rewrite E. simpl. set_solver.
  - destruct (client_connections m !! sid) as [V|] eqn:E; simpl; [|done].
    case_decide; simpl.
    + by rewrite lookup_delete_ne.
    + by rewrite lookup_insert_ne.
Qed.

Lemma connect_client_registry (ws : WebSocket) (sid : Z) (m : MetricsConnectionManager) :
  (connect_client ws sid m).1
  = Manager (<[sid := viewers sid m ∪ {[ws]}]> (client_connections m)) (agent_connections m).
Proof.
  unfold connect_client, viewers. simpl. f_equal.
  destruct (decide (is_Some (client_connections m !! sid))) as [[V HV]|Hn].
  - by rewrite HV.
  - apply eq_None_not_Some in Hn. rewrite lookup_insert_eq, Hn. simpl.
    apply insert_insert_eq.
Qed.

(** X1. [connect_client] accepts the transport and adds it to the viewer
    set of its server id, creating the set when the key is missing; the
    sets of the other server ids and the agents are untouched, and adding a
    transport that is already a viewer changes nothing. *)
Theorem connect_client_adds_one_viewer (ws : WebSocket) (sid : Z)
    (m : MetricsConnectionManager) :
  (connect_client ws sid m).2 = [Accept ws]
  ∧ (∀ sid', viewers sid' (connect_client ws sid m).1
             = if decide (sid' = sid) then viewers sid m ∪ {[ws]} else viewers sid' m)
  ∧ agent_connections (connect_client ws sid m).1 = agent_connections m
  ∧ (connect_client ws sid (connect_client ws sid m).1).1 = (connect_client ws sid m).1.
Proof.
  split; [done|]. split; [intros sid'; apply viewers_connect_client|]. split; [done|].
  rewrite !connect_client_registry. unfold viewers. simpl.
  rewrite lookup_insert_eq. simpl. rewrite insert_insert_eq.
  do 2 f_equal. set_solver.
Qed.

(** X2. [disconnect_client] removes the transport from the viewer set of
    its server id and from no other; it never leaves an empty set behind
    (the key is deleted instead), leaves the agents alone, and removing a
    transport a second time changes nothing. *)
Theorem disconnect_client_removes_one_viewer (ws : WebSocket) (sid : Z)
    (m : MetricsConnectionManager) :
  (∀ sid', viewers sid' (disconnect_client ws sid m)
           = if decide (sid' = sid) then viewers sid m ∖ {[ws]} else viewers sid' m)
  ∧ client_connections (disconnect_client ws sid m) !! sid ≠ Some ∅
  ∧ agent_connections (disconnect_client ws sid m) = agent_connections m
  ∧ disconnect_client ws sid (disconnect_client ws sid m) = disconnect_client ws sid m.
Proof.
  split; [intros sid'; apply viewers_disconnect_client|].
  unfold disconnect_client.
  destruct (client_connections m !! sid) as [V|] eqn:E.
  - destruct (decide (V ∖ {[ws]} = ∅)) as [He|He]; simpl.
    + rewrite lookup_delete_eq. done.
    + rewrite lookup_insert_eq.
      split; [congruence|]. split; [done|].
      rewrite decide_False by set_solver.
      rewrite insert_insert_eq. do 2 f_equal. set_solver.
  - simpl. rewrite E. done.
Qed.

(** X3. Connecting a transport that was not a viewer and disconnecting it
    again restores the registry, provided the server id did not hold an
    empty viewer set (which [disconnect_client] would delete). *)
Theorem connect_then_disconnect_restores (ws : WebSocket) (sid : Z)
    (m : MetricsConnectionManager) :
  ws ∉ viewers sid m →
  client_connections m !! sid ≠ Some ∅ →
  disconnect_client ws sid (connect_client ws sid m).1 = m.
Proof.
  intros Hws Hne. rewrite connect_client_registry.
  unfold disconnect_client, viewers in *. simpl. rewrite lookup_insert_eq.
  destruct m as [cc ac]. simpl in *.
  destruct (cc !! sid) as [V|] eqn:E; simpl in *.
  - rewrite decide_False.
    + rewrite insert_insert_eq. f_equal. apply insert_id. rewrite E. f_equal.
      clear -Hws. set_solver.
    + intros He. apply Hne. f_equal. clear -He Hws.
      apply set_eq. intros x. rewrite set_eq in He. specialize (He x).
      rewrite elem_of_difference, elem_of_union, elem_of_singleton in He.
      rewrite elem_of_empty in *. split; [|done]. intros Hx. apply (proj1 He).
      split; [by left|]. intros ->. done.
  - rewrite decide_True by (clear; set_solver).
    f_equal. rewrite delete_insert_eq. by apply delete_id.
Qed.

Lemma broadcast_to_clients_viewers_any (sid sid' : Z) (data : json)
    (m : MetricsConnectionManager) (ws : WebSocket) :
  ws ∈ viewers sid' (broadcast_to_clients alive sid data m).1
  ↔ ws ∈ viewers sid' m ∧ (sid' = sid → alive ws = true).
Proof.
  destruct (decide (sid' = sid)) as [->|Hs].
  - rewrite broadcast_to_clients_viewers. naive_solver.
  - unfold viewers, broadcast_to_clients.
    destruct (client_connections m !! sid) as [V|] eqn:HV; [|naive_solver].
    destruct (send_each alive data (elements V) ∅) as [dead evs]. simpl.
    rewrite lookup_insert_ne by done. naive_solver.
Qed.

(** X4. [broadcast_to_clients] makes one send attempt per viewer of its
    server id and none elsewhere; afterwards the viewers of that server id
    are those whose send succeeded.  The viewer sets of the other server
    ids and the agents are untouched, and no key of the table is created
    or deleted, also when the set becomes empty. *)
Theorem broadcast_is_local_to_its_server (sid : Z) (data : json)
    (m : MetricsConnectionManager) :
  (broadcast_to_clients alive sid data m).2
    = (λ ws, Send ws (json_dumps data) (alive ws)) <$> elements (viewers sid m)
  ∧ (∀ sid' ws, ws ∈ viewers sid' (broadcast_to_clients alive sid data m).1
       ↔ ws ∈ viewers sid' m ∧ (sid' = sid → alive ws = true))
  ∧ agent_connections (broadcast_to_clients alive sid data m).1 = agent_connections m
  ∧ dom (client_connections (broadcast_to_clients alive sid data m).1)
    = dom (client_connections m).
Proof.
  split; [|split; [|split]].
  - unfold viewers. destruct (client_connections m !! sid) as [V|] eqn:HV.
    + by destruct (broadcast_to_clients_some alive sid data m V HV) as (dead & -> & _).
    + unfold broadcast_to_clients. rewrite HV. simpl. by rewrite elements_empty.
  - intros sid' ws. apply broadcast_to_clients_viewers_any.
  - apply broadcast_to_clients_agents.
  - unfold broadcast_to_clients.
    destruct (client_connections m !! sid) as [V|] eqn:HV; [|done].
    destruct (send_each alive data (elements V) ∅) as [dead evs]. simpl.
    rewrite dom_insert_L. apply (elem_of_dom_2 (D:=gset Z)) in HV. set_solver.
Qed.

Lemma broadcast_to_clients_events (sid : Z) (data : json) (m : MetricsConnectionManager) :
  (broadcast_to_clients alive sid data m).2
  = (λ ws, Send ws (json_dumps data) (alive ws)) <$> elements (viewers sid m).
Proof.
  unfold viewers. destruct (client_connections m !! sid) as [V|] eqn:HV.
  - by destruct (broadcast_to_clients_some alive sid data m V HV) as (dead & -> & _).
  - unfold broadcast_to_clients. rewrite HV. simpl. by rewrite elements_empty.
Qed.

(** *** The registry only holds endpoints that are in their loop *)

Lemma sub_registry_refl (m : MetricsConnectionManager) : sub_registry m m.
Proof. by split. Qed.

Lemma consistent_not_streaming (m : MetricsConnectionManager)
    (conns : gmap WebSocket connection) (ws : WebSocket) (c : connection) :
  consistent (HubState m conns) → conns !! ws = Some c →
  conn_phase c ≠ Streaming → unregistered ws m.
Proof.
  intros [Ha Hv] Hc Hph. split; intros sid H.
  - apply Ha in H. simpl in H. rewrite Hc in H. injection H as ->. by apply Hph.
  - apply Hv in H. simpl in H. rewrite Hc in H. injection H as ->. by apply Hph.
Qed.

Lemma consistent_drop (m m' : MetricsConnectionManager)
    (conns : gmap WebSocket connection) (ws : WebSocket) (c : connection) :
  consistent (HubState m conns) → sub_registry m' m → unregistered ws m' →
  consistent (HubState m' (<[ws := c]> conns)).
Proof.
  intros [Ha Hv] [Sa Sv] [Ua Uv]. split; simpl in *; intros sid ws' H.
  - rewrite lookup_insert_ne; [by apply Ha, Sa|]. intros ->. by apply (Ua sid).
  - rewrite lookup_insert_ne; [by apply Hv, Sv|]. intros ->. by apply (Uv sid).
Qed.

Lemma consistent_keep (m m' : MetricsConnectionManager)
    (conns : gmap WebSocket connection) (ws : WebSocket) (c : connection) :
  consistent (HubState m conns) → sub_registry m' m → conns !! ws = Some c →
  consistent (HubState m' (<[ws := c]> conns)).
Proof.
  intros [Ha Hv] [Sa Sv] Hc. rewrite insert_id by done.
  split; simpl in *; intros sid ws' H; [by apply Ha, Sa|by apply Hv, Sv].
Qed.

Lemma sub_registry_broadcast (sid : Z) (data : json) (m : MetricsConnectionManager) :
  sub_registry (broadcast_to_clients alive sid data m).1 m.
Proof.
  split.
  - intros sid' ws. by rewrite broadcast_to_clients_agents.
  - intros sid' ws H.
    by apply broadcast_to_clients_viewers_any in H as [H _].
Qed.

Lemma sub_registry_disconnect_agent (sid : Z) (m : MetricsConnectionManager) :
  sub_registry (disconnect_agent sid m) m.
Proof.
  split; [|done]. intros sid' ws. rewrite disconnect_agent_lookup.
  by case_decide.
Qed.

Lemma sub_registry_disconnect_client (ws : WebSocket) (sid : Z)
    (m : MetricsConnectionManager) :
  sub_registry (disconnect_client ws sid m) m.
Proof.
  split.
  - intros sid' ws'. unfold disconnect_client.
    destruct (client_connections m !! sid); [|done]. by case_decide.
  - intros sid' ws'. rewrite viewers_disconnect_client. case_decide; [|done].
    subst. set_solver.
Qed.

Lemma ws_agent_step_consistent (conns : gmap WebSocket connection) (ws : WebSocket)
    (sid : Z) (ph : phase) (r : recv) (m : MetricsConnectionManager) :
  consistent (HubState m conns) →
  conns !! ws = Some (Connection AgentEndpoint sid ph) →
  consistent
    (HubState (ws_agent_step alive cfg ws sid ph r m).1.1
       (<[ws := Connection AgentEndpoint sid (ws_agent_step alive cfg ws sid ph r m).1.2]>
          conns)).
Proof.
  intros Hc Hws.
  assert (Hdrop : ∀ m', sub_registry m' m → ph ≠ Streaming →
            consistent (HubState m' (<[ws := Connection AgentEndpoint sid Finished]> conns))).
  { intros m' Hsub Hph. apply (consistent_drop m); [done..|].
    destruct (consistent_not_streaming _ _ _ _ Hc Hws Hph) as [Ua Uv].
    destruct Hsub as [Sa Sv]. split; intros s H; [by apply (Ua s), Sa|by apply (Uv s), Sv]. }
  assert (Hleave : consistent (HubState (disconnect_agent sid m)
            (<[ws := Connection AgentEndpoint sid Finished]> conns))).
  { apply (consistent_drop m); [done|apply sub_registry_disconnect_agent|].
    destruct Hc as [Ha Hv]. split; intros s H.
    - rewrite disconnect_agent_lookup in H. case_decide; [done|].
      apply Ha in H. simpl in H. rewrite Hws in H. congruence.
    - apply Hv in H. simpl in H. rewrite Hws in H. congruence. }
  destruct ph; simpl.
  - destruct r as [t|]; [|by apply Hdrop; [apply sub_registry_refl|]].
    destruct (secret_mismatch cfg t) as [[]|]; simpl;
      try (by apply Hdrop; [apply sub_registry_refl|]).
    destruct (consistent_not_streaming _ _ _ _ Hc Hws) as [Ua Uv]; [done|].
    destruct Hc as [Ha Hv]. split; simpl; intros s ws' H.
    + destruct (decide (s = sid)) as [->|Hs].
      * rewrite lookup_insert_eq in H. injection H as <-. by rewrite lookup_insert_eq.
      * rewrite lookup_insert_ne in H by done.
        rewrite lookup_insert_ne; [by apply Ha|]. intros ->. by apply (Ua s).
    + rewrite lookup_insert_ne; [by apply Hv|]. intros ->. by apply (Uv s).
  - destruct r as [data|]; [|exact Hleave].
    destruct (nonempty data); [|by apply (consistent_keep m); [|apply sub_registry_refl|]].
    destruct (json_loads data) as [v|e]; [|exact Hleave].
    pose proof (sub_registry_broadcast sid v m) as Hsub.
    destruct (broadcast_to_clients alive sid v m) as [m' evs]. simpl in *.
    by apply (consistent_keep m).
  - by apply (consistent_keep m); [|apply sub_registry_refl|].
Qed.

Lemma ws_metrics_step_consistent (conns : gmap WebSocket connection) (ws : WebSocket)
    (sid : Z) (ph : phase) (r : recv) (m : MetricsConnectionManager) :
  consistent (HubState m conns) →
  conns !! ws = Some (Connection ViewerEndpoint sid ph) →
  consistent
    (HubState (ws_metrics_step alive ws sid ph r m).1.1
       (<[ws := Connection ViewerEndpoint sid (ws_metrics_step alive ws sid ph r m).1.2]>
          conns)).
Proof.
  intros Hc Hws.
  assert (Hleave : consistent (HubState (disconnect_client ws sid m)
            (<[ws := Connection ViewerEndpoint sid Finished]> conns))).
  { apply (consistent_drop m); [done|apply sub_registry_disconnect_client|].
    destruct Hc as [Ha Hv]. split; intros s H.
    - destruct (sub_registry_disconnect_client ws sid m) as [Sa _].
      apply Sa, Ha in H. simpl in H. rewrite Hws in H. congruence.
    - rewrite viewers_disconnect_client in H. case_decide; [set_solver|].
      apply Hv in H. simpl in H. rewrite Hws in H. congruence. }
  assert (Hdrop : ph ≠ Streaming →
            consistent (HubState m (<[ws := Connection ViewerEndpoint sid Finished]> conns))).
  { intros Hph. apply (consistent_drop m); [done|apply sub_registry_refl|].
    by apply (consistent_not_streaming _ _ _ _ Hc Hws). }
  destruct ph; simpl; [by apply Hdrop| |by apply Hdrop].
  destruct r as [data|]; [|exact Hleave].
  destruct (relay_to_agent alive sid data m) as [[?|?] evs]; simpl; [|exact Hleave].
  by apply (consistent_keep m); [|apply sub_registry_refl|].
Qed.

Lemma hub_step_consistent (h : hub) (i : input) :
  consistent h → fresh_opens h [i] → consistent (hub_step alive cfg h i).1.
Proof.
  intros Hc [_ Hfresh]. destruct h as [m conns].
  destruct i as [[] ws sid|ws r]; simpl in *.
  - assert (Hn : conns !! ws = None) by (apply Hfresh; set_solver).
    destruct Hc as [Ha Hv]. split; simpl in *; intros s ws' H.
    + rewrite lookup_insert_ne; [by apply Ha|]. intros ->. apply Ha in H. congruence.
    + rewrite lookup_insert_ne; [by apply Hv|]. intros ->. apply Hv in H. congruence.
  - assert (Hn : conns !! ws = None) by (apply Hfresh; set_solver).
    change (consistent (HubState (connect_client ws sid m).1
              (<[ws := Connection ViewerEndpoint sid Streaming]> conns))).
    destruct Hc as [Ha Hv]. split; simpl in *; intros s ws' H.
    + rewrite lookup_insert_ne; [by apply Ha|].
      intros ->. apply Ha in H. congruence.
    + change (ws' ∈ viewers s (connect_client ws sid m).1) in H.
      rewrite viewers_connect_client in H. destruct (decide (ws' = ws)) as [->|Hne].
      * rewrite lookup_insert_eq. case_decide as Hs; [by subst|].
        apply Hv in H. congruence.
      * rewrite lookup_insert_ne by done. apply Hv.
        case_decide; [|done]. subst. set_solver.
  - destruct (conns !! ws) as [[role sid ph]|] eqn:Hws; [|done]. simpl.
    destruct role.
    + pose proof (ws_agent_step_consistent conns ws sid ph r m Hc Hws) as H.
      by destruct (ws_agent_step alive cfg ws sid ph r m) as [[m' ph'] evs].
    + pose proof (ws_metrics_step_consistent conns ws sid ph r m Hc Hws) as H.
      by destruct (ws_metrics_step alive ws sid ph r m) as [[m' ph'] evs].
Qed.

Lemma hub_step_connections (h : hub) (i : input) (ws : WebSocket) :
  connections (hub_step alive cfg h i).1 !! ws = None
  ↔ connections h !! ws = None ∧ ws ∉ opened [i].
Proof.
  destruct h as [m conns]. destruct i as [[] ws' sid|ws' r]; simpl.
  - rewrite lookup_insert_None, list_elem_of_singleton. naive_solver.
  - unfold ws_metrics_open. destruct (connect_client ws' sid m) as [m' evs]. simpl.
    rewrite lookup_insert_None, list_elem_of_singleton. naive_solver.
  - destruct (conns !! ws') as [c|] eqn:E; simpl.
    + destruct (match conn_role c with
                | AgentEndpoint => _ | ViewerEndpoint => _ end) as [[m' ph'] evs].
      simpl. rewrite lookup_insert_None. split.
      * intros [? _]. split; [done|]. by intros ?%elem_of_nil.
      * intros [H _]. split; [done|]. intros ->. congruence.
    + split; [|tauto]. intros H. split; [done|]. by intros ?%elem_of_nil.
Qed.

Lemma fresh_opens_cons (h : hub) (i : input) (rest : list input) :
  fresh_opens h (i :: rest) →
  fresh_opens h [i] ∧ fresh_opens (hub_step alive cfg h i).1 rest.
Proof.
  intros [Hnd Hf].
  assert (Hsplit : opened (i :: rest) = opened [i] ++ opened rest).
  { destruct i as [[]|]; done. }
  rewrite Hsplit in Hnd, Hf. apply NoDup_app in Hnd as (Hnd1 & Hdisj & Hnd2).
  repeat split.
  - done.
  - intros ws Hws. apply Hf, elem_of_app. by left.
  - done.
  - intros ws Hws. apply hub_step_connections. split.
    + apply Hf, elem_of_app. by right.
    + intros Hi. by apply (Hdisj ws).
Qed.

Lemma hub_run_consistent (h : hub) (inputs : list input) :
  consistent h → fresh_opens h inputs → consistent (hub_run alive cfg h inputs).1.
Proof.
  revert h. induction inputs as [|i rest IH]; intros h Hc Hf; simpl; [done|].
  apply fresh_opens_cons in Hf as [Hf1 Hf2].
  pose proof (hub_step_consistent h i Hc Hf1) as Hc1.
  destruct (hub_step alive cfg h i) as [h1 evs]. simpl in *.
  specialize (IH h1 Hc1 Hf2).
  by destruct (hub_run alive cfg h1 rest) as [h2 evs'].
Qed.

Lemma initial_hub_consistent : consistent initial_hub.
Proof.
  split; simpl; intros sid ws H.
  - by rewrite lookup_empty in H.
  - unfold viewers in H. simpl in H. rewrite lookup_empty in H. set_solver.
Qed.

Lemma fresh_opens_initial (inputs : list input) :
  NoDup (opened inputs) → fresh_opens initial_hub inputs.
Proof. intros H. split; [done|]. intros ws _. apply lookup_empty. Qed.

(** X6. Whatever reaches a hub that starts empty, as long as every
    connection is a transport of its own: a transport registered as the
    agent of a server id belongs to a [ws_agent] endpoint for that server
    id that passed the handshake and has not left its loop, and a
    transport registered as a viewer to a [ws_metrics] endpoint for that
    server id that has not left its loop.  So no transport is both an agent
    and a viewer, and no rejected or finished endpoint stays registered. *)
Theorem registry_holds_live_endpoints (inputs : list input) :
  NoDup (opened inputs) →
  let h := (hub_run alive cfg initial_hub inputs).1 in
  (∀ sid ws, agent_connections (metrics_manager h) !! sid = Some ws →
     connections h !! ws = Some (Connection AgentEndpoint sid Streaming))
  ∧ (∀ sid ws, ws ∈ viewers sid (metrics_manager h) →
     connections h !! ws = Some (Connection ViewerEndpoint sid Streaming))
  ∧ (∀ sid sid' ws, agent_connections (metrics_manager h) !! sid = Some ws →
     ws ∉ viewers sid' (metrics_manager h)).
Proof.
  intros Hnd h.
  destruct (hub_run_consistent initial_hub inputs initial_hub_consistent
              (fresh_opens_initial inputs Hnd)) as [Ha Hv].
  fold h in Ha, Hv. split; [exact Ha|]. split; [exact Hv|].
  intros sid sid' ws H1 H2. apply Ha in H1. apply Hv in H2. congruence.
Qed.

(** X7. Every frame the hub sends is the JSON document it has just
    received, passed on to a live endpoint of the other kind for the same
    server id:
    what an admitted agent sends goes to viewers of its server id, what a
    viewer sends goes to the agent of its server id, and nothing is sent
    on any other occasion. *)
Theorem hub_only_forwards (inputs : list input) (i : input) (ws : WebSocket)
    (t : text) (ok : bool) :
  NoDup (opened inputs) →
  let h := (hub_run alive cfg initial_hub inputs).1 in
  Send ws t ok ∈ (hub_step alive cfg h i).2 →
  ∃ src sid,
    i = Deliver src (Message t)
    ∧ ((connections h !! src = Some (Connection AgentEndpoint sid Streaming)
        ∧ connections h !! ws = Some (Connection ViewerEndpoint sid Streaming))
       ∨ (connections h !! src = Some (Connection ViewerEndpoint sid Streaming)
          ∧ connections h !! ws = Some (Connection AgentEndpoint sid Streaming))).
Proof.
  intros Hnd h.
  destruct (hub_run_consistent initial_hub inputs initial_hub_consistent
              (fresh_opens_initial inputs Hnd)) as [Ha Hv].
  fold h in Ha, Hv. clearbody h. destruct h as [m conns]. simpl in *.
  destruct i as [[] ws' sid|src r]; simpl.
  - by intros [=]%list_elem_of_singleton.
  - unfold ws_metrics_open. destruct (connect_client ws' sid m) as [m' evs] eqn:E.
    injection E as _ <-. simpl. by intros [=]%list_elem_of_singleton.
  - destruct (conns !! src) as [[role sid ph]|] eqn:Hsrc; simpl;
      [|by intros ?%elem_of_nil].
    destruct role.
    + pose proof (broadcast_to_clients_targets alive sid) as Htargets.
      destruct ph; simpl.
      * destruct r as [t'|]; [destruct (secret_mismatch cfg t') as [[]|]|]; simpl;
          try (by intros [=]%list_elem_of_singleton); by intros ?%elem_of_nil.
      * destruct r as [data|]; simpl; [|by intros ?%elem_of_nil].
        destruct data as [raw|v]; simpl.
        { destruct (negb _); simpl; by intros ?%elem_of_nil. }
        specialize (Htargets v m (Send ws t ok)).
        pose proof (send_each_events alive v) as Hev.
        unfold broadcast_to_clients in *.
        destruct (client_connections m !! sid) as [V|] eqn:HV; simpl in *;
          [|by intros ?%elem_of_nil].
        specialize (Hev (elements V) ∅).
        destruct (send_each alive v (elements V) ∅) as [dead evs]. simpl in *.
        intros H. exists src, sid. subst evs.
        pose proof H as (ws0 & Heq & _)%list_elem_of_fmap.
        injection Heq as ? ? ?. subst t.
        split; [done|]. left. split; [done|]. apply Hv. by apply Htargets.
      * by intros ?%elem_of_nil.
    + destruct ph; simpl; try (by intros ?%elem_of_nil).
      destruct r as [data|]; simpl; [|by intros ?%elem_of_nil].
      pose proof (relay_to_agent_targets alive sid data m (Send ws t ok)) as Htarget.
      unfold relay_to_agent in *.
      destruct data as [raw|v]; simpl in *.
      { destruct (negb _); simpl; by intros ?%elem_of_nil. }
      destruct (agent_connections m !! sid) as [agent|] eqn:Hagent; simpl in *;
        [|by intros ?%elem_of_nil].
      clear Htarget. destruct (alive agent) eqn:Hal; simpl;
        intros H; apply list_elem_of_singleton in H;
        injection H as ? ? ?; subst ws t; exists src, sid;
        (split; [done|]); right; (split; [done|]); by apply Ha.
Qed.

(** X8. The handshake the agent sends is accepted by exactly the hubs
    whose configured secret is the agent's: such a hub registers the
    transport as the agent of the server id, every other hub closes it
    with 4001 and leaves the registry alone. *)
Theorem agent_handshake_needs_its_secret (ws : WebSocket) (sid : Z)
    (m : MetricsConnectionManager) :
  ws_agent_step alive cfg ws sid Handshake (Message Agent.auth_payload) m
  = if decide (AGENT_SECRET cfg = Agent.AGENT_SECRET)
    then (Manager (client_connections m) (<[sid := ws]> (agent_connections m)),
          Streaming, [])
    else (m, Finished, [Close ws 4001]).
Proof.
  unfold ws_agent_step, secret_mismatch, Agent.auth_payload. simpl.
  unfold ne_str, eq_str. case_decide as H.
  - rewrite H, String.eqb_refl. done.
  - destruct (String.eqb Agent.AGENT_SECRET (AGENT_SECRET cfg)) eqn:E; [|done].
    apply String.eqb_eq in E. congruence.
Qed.

End RegistryProperties.

(** X5. Eviction lasts: a viewer whose send failed in one broadcast is
    not sent to by the next one.  Whatever the transports do at the second
    broadcast, its send attempts are made on exactly the viewers that took
    the first, and the viewers left afterwards are those that took both. *)
Theorem evicted_viewer_gets_no_further_send (first second : Hub.WebSocket → bool)
    (sid : Z) (data data' : Py.json) (m : Hub.MetricsConnectionManager) :
  let m1 := (Hub.broadcast_to_clients first sid data m).1 in
  (∀ ws t ok,
     Hub.Send ws t ok ∈ (Hub.broadcast_to_clients second sid data' m1).2
     ↔ ws ∈ Hub.viewers sid m ∧ first ws = true
       ∧ t = Py.json_dumps data' ∧ ok = second ws)
  ∧ (∀ ws, ws ∈ Hub.viewers sid (Hub.broadcast_to_clients second sid data' m1).1
       ↔ ws ∈ Hub.viewers sid m ∧ first ws = true ∧ second ws = true).
Proof.
  intros m1. subst m1. split.
  - intros ws t ok. rewrite broadcast_to_clients_events, list_elem_of_fmap.
    split.
    + intros (ws' & [= -> -> ->] & Hin). apply elem_of_elements in Hin.
      apply broadcast_to_clients_viewers in Hin as [? ?]. done.
    + intros (Hin & Hf & -> & ->). exists ws. split; [done|].
      apply elem_of_elements, broadcast_to_clients_viewers. done.
  - intros ws. rewrite !broadcast_to_clients_viewers. split.
    + by intros [[? ?] ?].
    + by intros (? & ? & ?).
Qed.

(** * Further properties of the agent *)

Section SamplerProperties.
Import Py Agent.

Lemma gather_ok (iter : list (outcome pinfo)) (acc procs : list process) :
  gather iter acc = Ok procs →
  procs = acc ++ (entry <$> readable iter)
  ∧ ∀ e, Raise e ∈ iter → skipped e = true.
Proof.
  revert acc. induction iter as [|[pinfo|e] rest IH]; intros acc; simpl.
  - intros [= <-]. split; [by rewrite app_nil_r|]. by intros e ?%elem_of_nil.
  - intros H. apply IH in H as [-> Hs]. split.
    + unfold readable. simpl. by rewrite <- app_assoc.
    + intros e [?|?]%elem_of_cons; [done|by apply Hs].
  - destruct (skipped e) eqn:E; [|done]. intros H. apply IH in H as [-> Hs].
    split; [done|]. intros e' [[= ->]|?]%elem_of_cons; [done|by apply Hs].
Qed.

Lemma gather_raise (iter : list (outcome pinfo)) (acc : list process) (e : exn) :
  gather iter acc = Raise e
  ↔ ∃ pre post, iter = pre ++ Raise e :: post ∧ skipped e = false
                ∧ ∀ e', Raise e' ∈ pre → skipped e' = true.
Proof.
  revert acc. induction iter as [|[pinfo|e0] rest IH]; intros acc; simpl.
  - split; [done|]. intros (pre & post & H & _). by destruct pre.
  - rewrite IH. split.
    + intros (pre & post & -> & He & Hpre). exists (Ok pinfo :: pre), post.
      split; [done|]. split; [done|].
      intros e' [?|?]%elem_of_cons; [done|by apply Hpre].
    + intros (pre & post & H & He & Hpre). destruct pre as [|x pre]; [done|].
      injection H as <- ->. exists pre, post. split; [done|]. split; [done|].
      intros e' He'. apply Hpre. by right.
  - destruct (skipped e0) eqn:E0.
    + rewrite IH. split.
      * intros (pre & post & -> & He & Hpre). exists (Raise e0 :: pre), post.
        split; [done|]. split; [done|].
        intros e' [[= ->]|?]%elem_of_cons; [done|by apply Hpre].
      * intros (pre & post & H & He & Hpre). destruct pre as [|x pre].
        { injection H as -> _. congruence. }
        injection H as <- ->. exists pre, post. split; [done|]. split; [done|].
        intros e' He'. apply Hpre. by right.
    + split.
      * intros [= ->]. exists [], rest. split; [done|]. split; [done|].
        by intros e' ?%elem_of_nil.
      * intros (pre & post & H & He & Hpre). destruct pre as [|x pre].
        { by injection H as ->. }
        injection H as <- _. rewrite Hpre in E0; [done|by left].
Qed.

(** X9. [get_processes] raises exactly when the information of some
    process raises an exception other than [NoSuchProcess], [AccessDenied]
    and [ZombieProcess], and then it raises the first such exception of the
    enumeration: the caught ones before it do not matter, and the
    processes after it are not looked at. *)
Theorem get_processes_raises_first_uncaught (iter : list (outcome pinfo)) (e : exn) :
  get_processes iter = Raise e
  ↔ ∃ pre post, iter = pre ++ Raise e :: post ∧ skipped e = false
                ∧ ∀ e', Raise e' ∈ pre → skipped e' = true.
Proof.
  rewrite <- (gather_raise iter [] e). unfold get_processes.
  destruct (gather iter []); simpl; split; congruence.
Qed.

(** X10. When [get_processes] returns, it returns [min(20, n)] entries for
    the [n] processes whose information could be read, each of them the
    entry of such a process with cpu and memory rounded to one decimal. *)
Theorem get_processes_count (iter : list (outcome pinfo)) (procs : list process) :
  get_processes iter = Ok procs →
  length procs = (20 `min` length (readable iter))%nat
  ∧ ∀ p, p ∈ procs → ∃ pinfo, pinfo ∈ readable iter ∧ p = entry pinfo.
Proof.
  unfold get_processes. destruct (gather iter []) as [l|] eqn:E; [|done].
  simpl. intros [= <-]. apply gather_ok in E as [-> _]. simpl. split.
  - rewrite length_take, (Permutation_length (sorted_desc_perm _)), length_fmap. done.
  - intros p Hp. apply subseteq_take in Hp.
    rewrite (sorted_desc_perm _) in Hp.
    apply list_elem_of_fmap in Hp as (pinfo & -> & Hin). by exists pinfo.
Qed.

Lemma insert_desc_filter (c : Q) (x : process) (l : list process) :
  filter (λ p, Qeq_bool (p_cpu p) c = true) (insert_desc x l)
  = filter (λ p, Qeq_bool (p_cpu p) c = true) (x :: l).
Proof.
  induction l as [|y l IH]; simpl; [done|].
  destruct (Qle_bool (p_cpu y) (p_cpu x)) eqn:E; [done|].
  rewrite (filter_cons _ y), IH, !filter_cons.
  destruct (decide (Qeq_bool (p_cpu y) c = true)) as [Hy|Hy]; [|done].
  destruct (decide (Qeq_bool (p_cpu x) c = true)) as [Hx|Hx]; [|done].
  exfalso. apply Qeq_bool_iff in Hx, Hy.
  assert (Hle : (p_cpu y <= p_cpu x)%Q) by (rewrite Hx, Hy; apply Qle_refl).
  apply Qle_bool_iff in Hle. congruence.
Qed.

(** X11. The ranking is stable: processes whose rounded cpu is equal come
    out in the order in which they were enumerated. *)
Theorem ranking_keeps_enumeration_order_of_ties (c : Q) (procs : list process) :
  filter (λ p, Qeq_bool (p_cpu p) c = true) (sorted_desc procs)
  = filter (λ p, Qeq_bool (p_cpu p) c = true) procs.
Proof.
  induction procs as [|x l IH]; simpl; [done|].
  by rewrite insert_desc_filter, !filter_cons, IH.
Qed.

(** *** The screen capture *)

(** X12. The three parts of what [capture_screen] returns agree: the data
    URI is present exactly when the status is [ok], which is exactly when
    the capture succeeded; an error message is present exactly otherwise;
    and the status is always one of [ok], [locked] and [error]. *)
Theorem capture_screen_is_coherent (grab : outcome string) :
  (is_Some (shot_data (capture_screen grab)) ↔ is_ok grab = true)
  ∧ (shot_status (capture_screen grab) = "ok" ↔ is_ok grab = true)
  ∧ (shot_error (capture_screen grab) = None ↔ is_ok grab = true)
  ∧ shot_status (capture_screen grab) ∈ ["ok"; "locked"; "error"]
  ∧ (∀ img_str, grab = Ok img_str →
       shot_data (capture_screen grab) = Some ("data:image/jpeg;base64," +:+ img_str)).
Proof.
  destruct grab as [img|e]; simpl.
  - split_and!; [by eauto..|set_solver|by intros ? [= ->]].
  - destruct (_ || _); simpl;
      (split_and!; [by split; [intros [? ?]|]|by split..|set_solver|by intros ?]).
Qed.

Lemma append_cons (c : ascii) (s1 s2 : string) :
  String c s1 +:+ s2 = String c (s1 +:+ s2).
Proof. reflexivity. Qed.

Lemma append_empty (s : string) : "" +:+ s = s.
Proof. reflexivity. Qed.

Lemma prefix_spec (needle hay : string) :
  String.prefix needle hay = true ↔ ∃ post, hay = needle +:+ post.
Proof.
  revert hay. induction needle as [|a needle IH]; intros hay.
  - split; [|by destruct hay]. intros _. exists hay. by rewrite append_empty.
  - destruct hay as [|b hay]; simpl.
    + split; [done|]. intros [post H]. by rewrite append_cons in H.
    + destruct (Ascii.ascii_dec a b) as [->|Hne].
      * rewrite IH. split; intros [post H]; exists post; rewrite append_cons in *;
          congruence.
      * split; [done|]. intros [post H]. rewrite append_cons in H. congruence.
Qed.

Lemma contains_spec (needle hay : string) :
  contains needle hay = true ↔ ∃ pre post, hay = pre +:+ needle +:+ post.
Proof.
  induction hay as [|c hay IH]; cbn [contains].
  - rewrite orb_false_r, prefix_spec. split.
    + intros [post H]. exists "", post. by rewrite append_empty.
    + intros (pre & post & H). destruct pre.
      * exists post. by rewrite append_empty in H.
      * by rewrite append_cons in H.
  - rewrite orb_true_iff, prefix_spec, IH. split.
    + intros [[post H]|(pre & post & ->)].
      * exists "", post. by rewrite append_empty.
      * exists (String c pre), post. by rewrite append_cons.
    + intros (pre & post & H). destruct pre as [|c' pre].
      * left. exists post. by rewrite append_empty in H.
      * right. rewrite append_cons in H. injection H as -> ->. by exists pre, post.
Qed.

(** X13. A failed capture is reported as [locked] exactly when the
    message of the exception, in lower case, contains [screen grab failed]
    or [handle]; every other failure is reported as [error] with the
    message of the exception as it is. *)
Theorem capture_failure_is_locked_or_error (e : exn) :
  let mentions (needle : string) :=
    ∃ pre post, lower (exn_msg e) = pre +:+ needle +:+ post in
  (shot_status (capture_screen (Raise e)) = "locked"
   ↔ mentions "screen grab failed" ∨ mentions "handle")
  ∧ (¬ (mentions "screen grab failed" ∨ mentions "handle") →
     capture_screen (Raise e) = Shot None "error" (Some (exn_msg e))).
Proof.
  intros mentions. unfold mentions. simpl.
  rewrite <- !contains_spec, <- orb_true_iff.
  destruct (_ || _); simpl.
  - split; [done|]. intros H. by destruct H.
  - split; [|done]. split; intros H; discriminate H.
Qed.

End SamplerProperties.

Section ExecutorProperties.
Import Py Agent.

Variable sys : os.

Lemma handle_command_touches (message : text) (pid : json) :
  NewProcess pid ∈ handle_command sys message ∨ Terminate pid ∈ handle_command sys message →
  ∃ fields,
    message = Doc (JObj fields)
    ∧ assoc "action" fields = Some (JStr "kill")
    ∧ assoc "pid" fields = Some pid
    ∧ truthy pid = true
    ∧ (Terminate pid ∈ handle_command sys message → os_process sys pid = Ok ()).
Proof.
  unfold handle_command. destruct message as [raw|[]]; simpl;
    try (intros [H|H]; apply list_elem_of_singleton in H; discriminate H).
  unfold eq_str.
  destruct (assoc "action" fields) as [[]|] eqn:Ha; simpl;
    try (intros [H|H]; apply elem_of_nil in H; destruct H).
  destruct (String.eqb s "kill") eqn:Es;
    [|intros [H|H]; apply elem_of_nil in H; destruct H].
  apply String.eqb_eq in Es. subst s.
  destruct (assoc "pid" fields) as [p|] eqn:Hp; simpl;
    [|intros [H|H]; apply elem_of_nil in H; destruct H].
  destruct (truthy p) eqn:Ht; [|intros [H|H]; apply elem_of_nil in H; destruct H].
  unfold kill. intros H. exists fields.
  assert (pid = p) as ->.
  { destruct (os_process sys p) as [[]|]; [destruct (os_terminate sys p)|];
      destruct H as [H|H];
      repeat (apply elem_of_cons in H as [H|H]; [congruence|]);
      by apply elem_of_nil in H. }
  repeat (split; [done|]).
  destruct (os_process sys p) as [[]|]; [done|].
  intros H'. repeat (apply elem_of_cons in H' as [H'|H']; [congruence|]).
  by apply elem_of_nil in H'.
Qed.

Lemma terminate_needs_handle (messages : list text) (pid : json) :
  Terminate pid ∈ handle_commands sys messages → os_process sys pid = Ok ().
Proof.
  induction messages as [|message rest IH]; simpl.
  - by intros ?%elem_of_nil.
  - intros [H|H]%elem_of_app; [|by apply IH].
    destruct (handle_command_touches message pid) as (f & _ & _ & _ & _ & Hos);
      [by right|by apply Hos].
Qed.

(** X14. [handle_commands] creates a process handle, and terminates a
    process, only for a message that is a JSON object with action [kill]
    and a pid that is true; the pid is that of the message, and the
    process is terminated only if the operating system gave a handle for
    it. *)
Theorem only_kill_commands_touch_processes (messages : list text) (pid : json) :
  NewProcess pid ∈ handle_commands sys messages
    ∨ Terminate pid ∈ handle_commands sys messages →
  (∃ fields,
     Doc (JObj fields) ∈ messages
     ∧ assoc "action" fields = Some (JStr "kill")
     ∧ assoc "pid" fields = Some pid
     ∧ truthy pid = true)
  ∧ (Terminate pid ∈ handle_commands sys messages → os_process sys pid = Ok ()).
Proof.
  intros H. split_and!; [|by apply terminate_needs_handle].
  induction messages as [|message rest IH].
  - destruct H as [H|H]; by apply elem_of_nil in H.
  - cbn [handle_commands] in H. rewrite !elem_of_app in H.
    assert (Hcase : (NewProcess pid ∈ handle_command sys message
                     ∨ Terminate pid ∈ handle_command sys message)
                    ∨ (NewProcess pid ∈ handle_commands sys rest
                       ∨ Terminate pid ∈ handle_commands sys rest)) by tauto.
    destruct Hcase as [Hh|Hr].
    + destruct (handle_command_touches message pid Hh) as (fields & -> & Ha & Hp & Ht & _).
      exists fields. split; [by left|done].
    + destruct (IH Hr) as (fields & Hin & Ha & Hp & Ht).
      exists fields. split; [by right|done].
Qed.

End ExecutorProperties.

Section PublishLoopProperties.
Import Py Agent.

(** X15. In every session the tick counter starts at 0, so the snapshot
    of tick [i] carries the screenshot keys exactly when [i] is a multiple
    of 5, for as long as the loop runs. *)
Theorem screenshot_cadence (ticks : list tick) (i : nat) (m : metrics) :
  (publish_loop ticks 0).1 !! i = Some m →
  has_screenshot m = true ↔ (i `mod` 5 = 0)%nat.
Proof.
  intros H. apply publish_loop_sent in H as (t & _ & Hm).
  apply collect_metrics_screenshot in Hm. unfold has_screenshot. rewrite Hm.
  rewrite Z.add_0_l. unfold take_ss.
  replace (Z.of_nat i `mod` 5) with (Z.of_nat (i `mod` 5)) by (by rewrite Nat2Z.inj_mod).
  destruct (Z.of_nat (i `mod` 5) =? 0) eqn:E.
  - apply Z.eqb_eq in E. split; [lia|done].
  - apply Z.eqb_neq in E. split; [done|lia].
Qed.

(** X16. The publish loop sends the snapshot of every tick until the
    first tick on which [collect_metrics] raises or the send fails, and
    none after it: it is left by that exception, with one snapshot sent per
    earlier tick; if no tick fails the loop goes on, its counter being the
    number of ticks done. *)
Theorem publish_loop_stops_at_first_failure (ticks : list tick) (counter : Z) :
  (∀ i m, (publish_loop ticks counter).1 !! i = Some m →
     ∃ t, ticks !! i = Some t ∧ tick_send_ok t = true
          ∧ collect_metrics (tick_host t) (take_ss (counter + Z.of_nat i)) = Ok m)
  ∧ match (publish_loop ticks counter).2 with
    | Looping counter' =>
        counter' = counter + Z.of_nat (length ticks)
        ∧ length (publish_loop ticks counter).1 = length ticks
    | Left e =>
        ∃ t, ticks !! length (publish_loop ticks counter).1 = Some t
             ∧ let r := collect_metrics (tick_host t)
                          (take_ss (counter + Z.of_nat (length (publish_loop ticks counter).1))) in
               r = Raise e ∨ (is_ok r = true ∧ tick_send_ok t = false)
    end.
Proof.
  revert counter. induction ticks as [|t rest IH]; intros counter; simpl.
  - split; [done|]. split; [lia|done].
  - destruct (collect_metrics (tick_host t) (take_ss counter)) as [m0|e] eqn:E; simpl.
    + destruct (tick_send_ok t) eqn:Hs; simpl.
      * specialize (IH (counter + 1)).
        destruct (publish_loop rest (counter + 1)) as [sent st]. simpl in *.
        destruct IH as [IH1 IH2]. split.
        { intros [|i] m; simpl.
          - intros [= <-]. exists t. by rewrite Z.add_0_r.
          - intros H. destruct (IH1 i m H) as (t' & ? & ? & Hm). exists t'.
            split; [done|]. split; [done|].
            by replace (counter + Z.of_nat (S i)) with (counter + 1 + Z.of_nat i) by lia. }
        destruct st as [c'|e].
        { destruct IH2 as [-> ->]. split; [lia|done]. }
        destruct IH2 as (t' & Ht' & Hr). exists t'. split; [done|].
        by replace (counter + Z.of_nat (S (length sent)))
          with (counter + 1 + Z.of_nat (length sent)) by lia.
      * split; [done|]. exists t. split; [done|]. simpl. rewrite Z.add_0_r, E. by right.
    + split; [done|]. exists t. split; [done|]. simpl. rewrite Z.add_0_r, E. by left.
Qed.

End PublishLoopProperties.

Section SessionProperties.
Import Py Agent Session.

Lemma follow_app (st : stage) (l1 l2 : list action) :
  follow st (l1 ++ l2)
  = match follow st l1 with
    | Some st' => follow st' l2
    | None => None
    end.
Proof.
  revert st. induction l1 as [|a l1 IH]; intros st; simpl; [done|].
  destruct (move st a); [apply IH|done].
Qed.

Lemma take_ss_nat (n : nat) : take_ss (Z.of_nat n) = bool_decide (n `mod` 5 = 0)%nat.
Proof.
  unfold take_ss.
  replace (Z.of_nat n `mod` 5) with (Z.of_nat (n `mod` 5)) by (by rewrite Nat2Z.inj_mod).
  destruct (Z.of_nat (n `mod` 5) =? 0) eqn:E.
  - apply Z.eqb_eq in E. rewrite bool_decide_true; [done|lia].
  - apply Z.eqb_neq in E. rewrite bool_decide_false; [done|lia].
Qed.

Lemma follow_frames (ticks : list tick) (n : nat) :
  follow (Ready n) (frames (publish_loop ticks (Z.of_nat n)).1)
  = Some (Ready (n + length (publish_loop ticks (Z.of_nat n)).1)).
Proof.
  revert n. induction ticks as [|t rest IH]; intros n; simpl.
  - by rewrite Nat.add_0_r.
  - destruct (collect_metrics (tick_host t) (take_ss (Z.of_nat n))) as [m|e] eqn:E;
      simpl; [|by rewrite Nat.add_0_r].
    destruct (tick_send_ok t); simpl; [|by rewrite Nat.add_0_r].
    specialize (IH (S n)).
    replace (Z.of_nat n + 1) with (Z.of_nat (S n)) by lia.
    destruct (publish_loop rest (Z.of_nat (S n))) as [sent st]. simpl in *.
    apply collect_metrics_screenshot in E. rewrite take_ss_nat in E.
    rewrite bool_decide_true.
    + change (move (Pausing n) (Slept UPDATE_INTERVAL)) with (Some (Ready (S n))).
      cbv iota beta. rewrite IH. f_equal. f_equal. lia.
    + unfold has_screenshot. rewrite E. by destruct (bool_decide _).
Qed.

Lemma follow_session_start (trace : list action) :
  follow Offline (Connected :: SentAuth auth_payload :: trace) = follow (Ready 0) trace.
Proof. reflexivity. Qed.

(** X17. Whatever the network and the host do, [run_agent] keeps to the
    protocol of a session: it connects, sends the handshake with its
    secret before anything else, then the snapshots, each followed by a
    pause of 3 seconds, the one of tick [n] of the session with a
    screenshot exactly when [n] is a multiple of 5; and after every failure
    it pauses 5 seconds and starts over with a new connection. *)
Theorem run_agent_follows_the_protocol (attempts : list attempt) :
  is_Some (follow Offline (run_agent attempts)).
Proof.
  induction attempts as [|a rest IH]; cbn [run_agent]; [by eexists|].
  destruct (att_connect a); [|exact IH].
  destruct (att_auth_ok a); [|exact IH].
  rewrite follow_session_start.
  pose proof (follow_frames (att_ticks a) 0) as Hf.
  change (Z.of_nat 0) with 0 in Hf.
  destruct (publish_loop (att_ticks a) 0) as [sent st]. cbn [fst] in Hf.
  rewrite follow_app, Hf. destruct st; [by eexists|exact IH].
Qed.

End SessionProperties.

(** A trace that sends a snapshot before the handshake is none of the
    protocol. *)
Example follow_rejects_metrics_before_auth (m : Agent.metrics) :
  Session.follow Session.Offline [Session.Connected; Session.SentMetrics m] = None.
Proof. reflexivity. Qed.

(** * Properties of tokens and roles *)

Section AuthProperties.
Import Py Auth.

Variable jwt_encode : list (string * json) → string.
Variable jwt_decode : string → option (list (string * json)).
Variable int : json → outcome Z.

Lemma assoc_dict_set (key k : string) (v : json) (fields : list (string * json)) :
  assoc k (dict_set key v fields) = if decide (k = key) then Some v else assoc k fields.
Proof.
  induction fields as [|[k0 x] rest IH]; simpl.
  - destruct (String.eqb key k) eqn:E.
    + apply String.eqb_eq in E. by rewrite decide_True.
    + apply String.eqb_neq in E. by rewrite decide_False.
  - destruct (String.eqb k0 key) eqn:E; simpl.
    + apply String.eqb_eq in E. subst k0.
      destruct (String.eqb key k) eqn:E'.
      * apply String.eqb_eq in E'. by rewrite decide_True.
      * apply String.eqb_neq in E'. by rewrite decide_False.
    + apply String.eqb_neq in E. destruct (String.eqb k0 k) eqn:E'.
      * apply String.eqb_eq in E'. subst k0. by rewrite decide_False.
      * exact IH.
Qed.

(** X18. The claims of a token: [create_access_token] and
    [create_refresh_token] keep every claim of the data but [exp] and
    [type], which they set, overwriting what the caller gave: the type is
    [access] or [refresh] and the expiry lies [expires_delta] after the
    present, 30 minutes when none or one of zero is given, and 7 days for a
    refresh token. *)
Theorem token_claims (data : list (string * json)) (now : Z) (expires_delta : option Z)
    (key : string) :
  assoc key (access_claims data now expires_delta)
  = (if decide (key = "type") then Some (JStr "access")
     else if decide (key = "exp")
          then Some (JInt (now + match expires_delta with
                                 | Some d => if decide (d = 0) then minutes 30 else d
                                 | None => minutes 30
                                 end))
          else assoc key data)
  ∧ assoc key (refresh_claims data now)
    = (if decide (key = "type") then Some (JStr "refresh")
       else if decide (key = "exp") then Some (JInt (now + days 7))
            else assoc key data).
Proof.
  unfold access_claims, refresh_claims. rewrite !assoc_dict_set. split; [|done].
  repeat case_decide; try done.
  do 3 f_equal. destruct expires_delta as [d|]; [|done].
  destruct (Z.eqb_spec d 0); by case_decide.
Qed.

(** X19. [get_current_user] returns a user exactly for a token that
    decodes to claims with a subject that is not null and that [int]
    converts; the user's role is the claim [role], [viewer] when the token
    has none.  A token that does not decode is answered 401 [Invalid token],
    one without subject 401 [Invalid token payload]; no other
    [HTTPException] is raised. *)
Theorem get_current_user_answers (token : string) :
  (∀ u, get_current_user jwt_decode int token = Return u
     ↔ ∃ payload sub,
         jwt_decode token = Some payload
         ∧ assoc "sub" payload = Some sub ∧ sub ≠ JNull
         ∧ int sub = Ok (user_id u)
         ∧ user_role u = default (JStr "viewer") (assoc "role" payload))
  ∧ (∀ status_code detail,
       get_current_user jwt_decode int token = HTTPException status_code detail
       ↔ status_code = 401
         ∧ ((jwt_decode token = None ∧ detail = "Invalid token")
            ∨ ((∃ payload, jwt_decode token = Some payload
                           ∧ default JNull (assoc "sub" payload) = JNull)
               ∧ detail = "Invalid token payload"))).
Proof.
  unfold get_current_user, decode_token.
  destruct (jwt_decode token) as [payload|] eqn:Hdec; simpl.
  2:{ split; [intros u|intros c d]; split.
      - done.
      - by intros (? & ? & ? & _).
      - intros [= <- <-]. split; [done|]. by left.
      - by intros [-> [[_ ->]|[(? & ? & _) _]]]. }
  assert (Hmissing : default JNull (assoc "sub" payload) = JNull →
            ∀ p s, Some payload = Some p → assoc "sub" p = Some s → s ≠ JNull → False).
  { intros Hd p s [= <-] Hs Hn. rewrite Hs in Hd. simpl in Hd. done. }
  destruct (default JNull (assoc "sub" payload)) as [|b0|n0|q0|s0|l0|f0] eqn:Hsub.
  1:{ split; [intros u|intros c d]; split.
      - done.
      - intros (p & s & Hp & Hs & Hn & _). exfalso. by apply (Hmissing eq_refl p s).
      - intros [= <- <-]. split; [done|]. right. split; [|done]. by exists payload.
      - by intros [-> [[? _]|[_ ->]]]. }
  all: assert (Hs : ∃ sub, assoc "sub" payload = Some sub ∧ sub ≠ JNull
                           ∧ default JNull (assoc "sub" payload) = sub)
         by (destruct (assoc "sub" payload) as [sub|]; [|done];
             exists sub; split; [done|]; simpl in Hsub; by subst sub);
       destruct Hs as (sub & Hs1 & Hs2 & Hs3); rewrite Hsub in Hs3; rewrite Hs3;
       (split; [intros u|intros c d]; split;
        [ destruct (int sub) as [k|e0] eqn:Hint; [|done];
          intros [= <-]; exists payload, sub; by split_and!
        | intros (p & s & [= <-] & Hp & _ & Hi & Hr);
          rewrite Hs1 in Hp; injection Hp as <-; rewrite Hi;
          destruct u as [k r]; simpl in *; by subst r
        | by destruct (int sub)
        | intros [_ [[? _]|[(p & [= <-] & Hp) _]]]; [done|];
          rewrite Hs1 in Hp; simpl in Hp; by subst sub ]).
Qed.

Lemma get_current_user_of_claims (token : string) (claims : list (string * json))
    (sub : json) (n : Z) :
  jwt_decode token = Some claims →
  assoc "sub" claims = Some sub → sub ≠ JNull → int sub = Ok n →
  get_current_user jwt_decode int token
  = Return (User n (default (JStr "viewer") (assoc "role" claims))).
Proof.
  intros Hd Hs Hn Hi. unfold get_current_user, decode_token. rewrite Hd, Hs. simpl.
  destruct sub; try done; by rewrite Hi.
Qed.

(** X20. A token whose claims have no role is a viewer's: a dependency
    [require_role(allowed_roles)] lets it pass exactly when [viewer] is
    among the allowed roles, so the routes that create, update and delete
    servers answer 403 to it. *)
Theorem token_without_role_is_a_viewer (token : string) (claims : list (string * json))
    (u : user) :
  jwt_decode token = Some claims →
  assoc "role" claims = None →
  get_current_user jwt_decode int token = Return u →
  user_role u = JStr "viewer"
  ∧ (∀ allowed_roles,
       require_role allowed_roles (get_current_user jwt_decode int token)
       = if bool_decide ("viewer" ∈ allowed_roles) then Return u
         else HTTPException 403 "Insufficient permissions")
  ∧ require_role create_server_roles (get_current_user jwt_decode int token)
    = HTTPException 403 "Insufficient permissions"
  ∧ require_role update_server_roles (get_current_user jwt_decode int token)
    = HTTPException 403 "Insufficient permissions"
  ∧ require_role delete_server_roles (get_current_user jwt_decode int token)
    = HTTPException 403 "Insufficient permissions".
Proof.
  intros Hd Hr Hu.
  assert (Hrole : user_role u = JStr "viewer").
  { revert Hu. unfold get_current_user, decode_token. rewrite Hd, Hr. simpl.
    destruct (default JNull (assoc "sub" claims)); try done;
      (destruct (int _); [|done]); by intros [= <-]. }
  assert (Hno : ∀ allowed_roles, "viewer" ∉ allowed_roles →
            require_role allowed_roles (Return u)
            = HTTPException 403 "Insufficient permissions").
  { intros allowed Hin. unfold require_role, role_in. rewrite Hrole.
    by rewrite bool_decide_false. }
  assert (Hnot : ∀ l : list string, Forall (λ r, r ≠ "viewer") l → "viewer" ∉ l).
  { intros l Hl Hin. rewrite Forall_forall in Hl. by apply (Hl _ Hin). }
  rewrite Hu. split; [exact Hrole|]. split.
  { intros allowed. unfold require_role, role_in. by rewrite Hrole. }
  split_and!; apply Hno, Hnot; repeat constructor; discriminate.
Qed.

(** X21. [get_current_user] does not look at the claim [type]: provided
    the token decodes to the claims it was made from, a token of
    [create_refresh_token] is accepted like one of [create_access_token],
    as the user of the subject and with the role of the data. *)
Theorem refresh_token_passes_for_access_token (data : list (string * json)) (now : Z)
    (expires_delta : option Z) (sub : json) (n : Z) :
  jwt_decode (create_access_token jwt_encode data now expires_delta)
    = Some (access_claims data now expires_delta) →
  jwt_decode (create_refresh_token jwt_encode data now) = Some (refresh_claims data now) →
  assoc "sub" data = Some sub → sub ≠ JNull → int sub = Ok n →
  get_current_user jwt_decode int (create_access_token jwt_encode data now expires_delta)
    = Return (User n (default (JStr "viewer") (assoc "role" data)))
  ∧ get_current_user jwt_decode int (create_refresh_token jwt_encode data now)
    = Return (User n (default (JStr "viewer") (assoc "role" data))).
Proof.
  intros Ha Hr Hs Hn Hi.
  assert (Hkeep : ∀ c : list (string * json),
            assoc "sub" c = assoc "sub" data → assoc "role" c = assoc "role" data →
            ∀ token, jwt_decode token = Some c →
            get_current_user jwt_decode int token
            = Return (User n (default (JStr "viewer") (assoc "role" data)))).
  { intros c Hcs Hcr token Hd. rewrite <- Hcr.
    apply (get_current_user_of_claims token c sub n); [done| |done..]. by rewrite Hcs. }
  assert (Hset : ∀ key v (c : list (string * json)),
            key ≠ "sub" → key ≠ "role" →
            assoc "sub" (dict_set key v c) = assoc "sub" c
            ∧ assoc "role" (dict_set key v c) = assoc "role" c).
  { intros key v c H1 H2. rewrite !assoc_dict_set.
    split; rewrite decide_False; congruence. }
  split.
  - apply (Hkeep (access_claims data now expires_delta)); [| |exact Ha];
      unfold access_claims.
    + rewrite (proj1 (Hset "type" _ _ ltac:(discriminate) ltac:(discriminate))).
      apply (proj1 (Hset "exp" _ _ ltac:(discriminate) ltac:(discriminate))).
    + rewrite (proj2 (Hset "type" _ _ ltac:(discriminate) ltac:(discriminate))).
      apply (proj2 (Hset "exp" _ _ ltac:(discriminate) ltac:(discriminate))).
  - apply (Hkeep (refresh_claims data now)); [| |exact Hr]; unfold refresh_claims.
    + rewrite (proj1 (Hset "type" _ _ ltac:(discriminate) ltac:(discriminate))).
      apply (proj1 (Hset "exp" _ _ ltac:(discriminate) ltac:(discriminate))).
    + rewrite (proj2 (Hset "type" _ _ ltac:(discriminate) ltac:(discriminate))).
      apply (proj2 (Hset "exp" _ _ ltac:(discriminate) ltac:(discriminate))).
Qed.

End AuthProperties.

(** * Properties of the Redis client *)

Section RedisProperties.
Import Py Redis.

Lemma get_redis_calls_cached (es : list env) (c : client) :
  get_redis_calls es (Some c) = (Some c, replicate (length es) (Some c, [])).
Proof.
  induction es as [|e rest IH]; simpl; [done|]. by rewrite IH.
Qed.

(** X22. [get_redis] keeps the first client whose ping succeeded.  If
    some call of a run that starts without a client returns a client, then
    one call [k] made the connection: every call before it tried to
    connect and returned [None] (a client whose ping fails is not kept),
    and every call after it returns the same client without connecting or
    pinging again. *)
Theorem get_redis_keeps_first_live_client (es : list env) (i : nat)
    (c : client) (evs : list event) :
  (get_redis_calls es None).2 !! i = Some (Some c, evs) →
  (get_redis_calls es None).1 = Some c
  ∧ ∃ k e,
      (k ≤ i)%nat ∧ es !! k = Some e ∧ from_url e = Ok c ∧ ping e c = Ok ()
      ∧ ∀ j answer, (get_redis_calls es None).2 !! j = Some answer →
          ((j < k)%nat → answer.1 = None ∧ FromUrl ∈ answer.2)
          ∧ (j = k → answer = (Some c, [FromUrl; Ping c]))
          ∧ ((k < j)%nat → answer = (Some c, [])).
Proof.
  revert i. induction es as [|e rest IH]; intros i; simpl; [done|].
  assert (Hfail : ∀ evs0,
            FromUrl ∈ evs0 →
            ((None, evs0) :: (get_redis_calls rest None).2) !! i = Some (Some c, evs) →
            (get_redis_calls rest None).1 = Some c
            ∧ ∃ k e0,
                (k ≤ i)%nat ∧ (e :: rest) !! k = Some e0
                ∧ from_url e0 = Ok c ∧ ping e0 c = Ok ()
                ∧ ∀ j answer,
                    ((None, evs0) :: (get_redis_calls rest None).2) !! j = Some answer →
                    ((j < k)%nat → answer.1 = None ∧ FromUrl ∈ answer.2)
                    ∧ (j = k → answer = (Some c, [FromUrl; Ping c]))
                    ∧ ((k < j)%nat → answer = (Some c, []))).
  { intros evs0 Hev Hi. destruct i as [|i]; [done|]. simpl in Hi.
    destruct (IH i Hi) as (Hfin & k & e0 & Hk & He0 & Hf & Hp & Hall).
    split; [done|]. exists (S k), e0. split_and!; [lia|done..|].
    intros [|j] answer; simpl.
    - intros [= <-]. split_and!; [done|lia..].
    - intros Hj. destruct (Hall j answer Hj) as (H1 & H2 & H3).
      split_and!; [intros ?; apply H1; lia|intros ?; apply H2; lia
                  |intros ?; apply H3; lia]. }
  destruct (from_url e) as [c0|x] eqn:Hf; simpl.
  2:{ destruct (get_redis_calls rest None) as [final answers]. simpl in *.
      apply Hfail. by left. }
  destruct (ping e c0) as [[]|x] eqn:Hp; simpl.
  2:{ destruct (get_redis_calls rest None) as [final answers]. simpl in *.
      apply Hfail. by left. }
  clear Hfail IH. rewrite get_redis_calls_cached. simpl. intros Hi.
  assert (c0 = c) as ->.
  { destruct i as [|i]; simpl in Hi; [by injection Hi as ->|].
    apply lookup_replicate in Hi as [[= ->] _]. done. }
  split; [done|]. exists 0%nat, e. split_and!; [lia|done..|].
  intros [|j] answer; simpl.
  - intros [= <-]. split_and!; [lia|done|lia].
  - intros [-> _]%lookup_replicate. split_and!; [lia|lia|done].
Qed.

End RedisProperties.

(** * A process whose attributes are denied *)

Section EnumerationProperties.
Import Py Agent Enumeration.

Lemma read_info_denied (info : stored) :
  denied info →
  ∃ e, read_info info = Raise e ∧ exn_cls e = TypeError ∧ skipped e = false.
Proof.
  unfold denied, read_info. intros [H|H]; rewrite H.
  - by eexists.
  - destruct (st_cpu_percent info); by eexists.
Qed.

Lemma gather_denied (infos : list stored) (procs : list process) :
  (∃ info, info ∈ infos ∧ denied info) →
  ∃ e, gather (read_info <$> infos) procs = Raise e ∧ exn_cls e = TypeError.
Proof.
  revert procs. induction infos as [|info rest IH]; intros procs (x & Hin & Hx).
  - by apply elem_of_nil in Hin.
  - simpl. destruct (read_info info) as [pinfo|e] eqn:E.
    + apply IH. exists x. split; [|done].
      apply elem_of_cons in Hin as [->|Hin]; [|done].
      destruct (read_info_denied _ Hx) as (e & He & _). congruence.
    + assert (He : exn_cls e = TypeError ∧ skipped e = false).
      { unfold read_info in E.
        destruct (st_cpu_percent info); [destruct (st_memory_percent info)|];
          first [discriminate E|by injection E as <-]. }
      destruct He as [Hc Hs]. rewrite Hs. by exists e.
Qed.

(** However many processes can be read, one denied attribute makes
    [get_processes] raise [TypeError]. *)
Lemma get_processes_raises_on_denied (infos : list stored) :
  (∃ info, info ∈ infos ∧ denied info) →
  ∃ e, get_processes (read_info <$> infos) = Raise e ∧ exn_cls e = TypeError.
Proof.
  intros H. destruct (gather_denied infos [] H) as (e & He & Hc).
  exists e. unfold get_processes. by rewrite He.
Qed.

(** C9, at the failing input. Of three processes the second has its cpu
    denied, so [proc.info] holds [None] there: the body of the [try] calls
    [round(None, 1)], the [TypeError] is none of the exceptions the
    [except] clause names, and [get_processes] raises it instead of
    skipping the process and returning the other two. *)
Theorem denied_process_aborts_get_processes :
  get_processes (read_info <$> one_denied)
    = Raise (Exn TypeError "type NoneType doesn't define __round__ method")
  ∧ skipped (Exn TypeError "type NoneType doesn't define __round__ method") = false
  ∧ (p_pid <$> default [] (match get_processes
                                   (read_info <$> filter (λ info, is_Some (st_cpu_percent info))
                                                    one_denied) with
                           | Ok procs => Some procs
                           | Raise _ => None
                           end))
    = [812; 1].
Proof. split_and!; by vm_compute. Qed.

End EnumerationProperties.

(** * The properties at work on the examples *)

Import Py Hub Registry Agent Session Auth Scenario Example.

Lemma connect_then_disconnect_restores_witness :
  let m := Manager {[1 := {[2%nat]}]} ∅ in
  (5%nat ∉ viewers 1 m)
  ∧ client_connections m !! 1 ≠ Some ∅
  ∧ disconnect_client 5%nat 1 (connect_client 5%nat 1 m).1 = m.
Proof.
  intros m.
  assert (H1 : 5%nat ∉ viewers 1 m) by (by vm_compute).
  assert (H2 : client_connections m !! 1 ≠ Some ∅) by (vm_compute; discriminate).
  split; [exact H1|]. split; [exact H2|].
  exact (connect_then_disconnect_restores 5%nat 1 m H1 H2).
Defined.

Lemma accepted_agent_opens_once : NoDup (opened accepted_agent).
Proof.
  simpl. apply NoDup_cons. split; [|apply NoDup_singleton].
  by intros [=]%list_elem_of_singleton.
Qed.

Lemma registry_holds_live_endpoints_witness :
  NoDup (opened accepted_agent)
  ∧ let h := (hub_run everyone settings initial_hub accepted_agent).1 in
    (∀ sid ws, agent_connections (metrics_manager h) !! sid = Some ws →
       connections h !! ws = Some (Connection AgentEndpoint sid Streaming))
    ∧ (∀ sid ws, ws ∈ viewers sid (metrics_manager h) →
       connections h !! ws = Some (Connection ViewerEndpoint sid Streaming))
    ∧ (∀ sid sid' ws, agent_connections (metrics_manager h) !! sid = Some ws →
       ws ∉ viewers sid' (metrics_manager h)).
Proof.
  split; [exact accepted_agent_opens_once|].
  exact (registry_holds_live_endpoints everyone settings accepted_agent
           accepted_agent_opens_once).
Defined.

Lemma hub_only_forwards_witness :
  let h := (hub_run everyone settings initial_hub accepted_agent).1 in
  let i := Deliver 1%nat (Message (Doc telemetry)) in
  NoDup (opened accepted_agent)
  ∧ Send 2%nat (Doc telemetry) true ∈ (hub_step everyone settings h i).2
  ∧ ∃ src sid,
      i = Deliver src (Message (Doc telemetry))
      ∧ ((connections h !! src = Some (Connection AgentEndpoint sid Streaming)
          ∧ connections h !! 2%nat = Some (Connection ViewerEndpoint sid Streaming))
         ∨ (connections h !! src = Some (Connection ViewerEndpoint sid Streaming)
            ∧ connections h !! 2%nat = Some (Connection AgentEndpoint sid Streaming))).
Proof.
  intros h i.
  assert (H : Send 2%nat (Doc telemetry) true ∈ (hub_step everyone settings h i).2).
  { vm_compute. apply list_elem_of_singleton. reflexivity. }
  split; [exact accepted_agent_opens_once|]. split; [exact H|].
  exact (hub_only_forwards everyone settings accepted_agent i 2%nat (Doc telemetry) true
           accepted_agent_opens_once H).
Defined.

Lemma get_processes_count_witness :
  let iter := host_process_iter (host_with locked) in
  ∃ procs,
    get_processes iter = Ok procs
    ∧ length procs = (20 `min` length (readable iter))%nat
    ∧ ∀ p, p ∈ procs → ∃ pinfo, pinfo ∈ readable iter ∧ p = entry pinfo.
Proof.
  intros iter. eexists. split; [by vm_compute|].
  apply (get_processes_count iter). by vm_compute.
Defined.

Lemma capture_failure_is_locked_or_error_witness :
  let e := Exn OSError "no display" in
  let mentions (needle : string) :=
    ∃ pre post, lower (exn_msg e) = pre +:+ needle +:+ post in
  ¬ (mentions "screen grab failed" ∨ mentions "handle")
  ∧ capture_screen (Raise e) = Shot None "error" (Some (exn_msg e)).
Proof.
  intros e mentions.
  assert (H : ¬ (mentions "screen grab failed" ∨ mentions "handle")).
  { intros [H|H]; apply contains_spec in H; vm_compute in H; discriminate H. }
  split; [exact H|].
  exact (proj2 (capture_failure_is_locked_or_error e) H).
Defined.

Lemma only_kill_commands_touch_processes_witness :
  (NewProcess (JInt 4242) ∈ handle_commands only_4242 [Doc kill_4242]
   ∨ Terminate (JInt 4242) ∈ handle_commands only_4242 [Doc kill_4242])
  ∧ (∃ fields,
       Doc (JObj fields) ∈ [Doc kill_4242]
       ∧ assoc "action" fields = Some (JStr "kill")
       ∧ assoc "pid" fields = Some (JInt 4242)
       ∧ truthy (JInt 4242) = true)
  ∧ (Terminate (JInt 4242) ∈ handle_commands only_4242 [Doc kill_4242] →
     os_process only_4242 (JInt 4242) = Ok ()).
Proof.
  assert (H : NewProcess (JInt 4242) ∈ handle_commands only_4242 [Doc kill_4242]
              ∨ Terminate (JInt 4242) ∈ handle_commands only_4242 [Doc kill_4242]).
  { left. vm_compute. apply elem_of_cons. right. apply elem_of_cons. by left. }
  split; [exact H|].
  exact (only_kill_commands_touch_processes only_4242 [Doc kill_4242] (JInt 4242) H).
Defined.

Lemma screenshot_cadence_witness :
  let ticks := replicate 7 (Tick (host_with (Ok "AAAA")) true) in
  ∃ m, (publish_loop ticks 0).1 !! 5%nat = Some m
       ∧ (has_screenshot m = true ↔ (5 `mod` 5 = 0)%nat).
Proof.
  intros ticks. eexists. split; [by vm_compute|].
  apply (screenshot_cadence ticks 5). by vm_compute.
Defined.

Lemma token_without_role_is_a_viewer_witness :
  let u := User 7 (JStr "viewer") in
  claims_of_type "anonymous" = Some [("sub", JStr "7")]
  ∧ assoc "role" [("sub", JStr "7")] = None
  ∧ get_current_user claims_of_type int_of "anonymous" = Return u
  ∧ require_role delete_server_roles (get_current_user claims_of_type int_of "anonymous")
    = HTTPException 403 "Insufficient permissions"
  ∧ require_role ["admin"; "viewer"] (get_current_user claims_of_type int_of "anonymous")
    = Return u.
Proof.
  intros u.
  assert (H1 : claims_of_type "anonymous" = Some [("sub", JStr "7")]) by reflexivity.
  assert (H2 : assoc "role" [("sub", JStr "7")] = None) by reflexivity.
  assert (H3 : get_current_user claims_of_type int_of "anonymous" = Return u) by reflexivity.
  pose proof (token_without_role_is_a_viewer claims_of_type int_of "anonymous" _ u H1 H2 H3)
    as (_ & Hany & _ & _ & Hdel).
  split; [exact H1|]. split; [exact H2|]. split; [exact H3|]. split; [exact Hdel|].
  exact (Hany ["admin"; "viewer"]).
Defined.

Lemma refresh_token_passes_for_access_token_witness :
  claims_of_type (create_access_token type_of_claims token_data 0 None)
    = Some (access_claims token_data 0 None)
  ∧ claims_of_type (create_refresh_token type_of_claims token_data 0)
    = Some (refresh_claims token_data 0)
  ∧ assoc "sub" token_data = Some (JStr "7")
  ∧ JStr "7" ≠ JNull
  ∧ int_of (JStr "7") = Ok 7
  ∧ get_current_user claims_of_type int_of
      (create_access_token type_of_claims token_data 0 None)
    = Return (User 7 (default (JStr "viewer") (assoc "role" token_data)))
  ∧ get_current_user claims_of_type int_of (create_refresh_token type_of_claims token_data 0)
    = Return (User 7 (default (JStr "viewer") (assoc "role" token_data))).
Proof.
  assert (H1 : claims_of_type (create_access_token type_of_claims token_data 0 None)
               = Some (access_claims token_data 0 None)) by reflexivity.
  assert (H2 : claims_of_type (create_refresh_token type_of_claims token_data 0)
               = Some (refresh_claims token_data 0)) by reflexivity.
  assert (H3 : assoc "sub" token_data = Some (JStr "7")) by reflexivity.
  assert (H4 : JStr "7" ≠ JNull) by discriminate.
  assert (H5 : int_of (JStr "7") = Ok 7) by reflexivity.
  split; [exact H1|]. split; [exact H2|]. split; [exact H3|]. split; [exact H4|].
  split; [exact H5|].
  exact (refresh_token_passes_for_access_token type_of_claims claims_of_type int_of
           token_data 0 None (JStr "7") 7 H1 H2 H3 H4 H5).
Defined.

(** A session that fails on its third tick, a connection that is refused
    and a session that is still running. *)
Example run_agent_example :
  let good := Tick (host_with (Ok "AAAA")) true in
  let lost := Tick (host_with (Ok "AAAA")) false in
  (λ a, match a with
        | Connected => "connect"
        | SentAuth _ => "auth"
        | SentMetrics m => if has_screenshot m then "snapshot+screenshot" else "snapshot"
        | Slept 3 => "sleep 3"
        | Slept _ => "sleep 5"
        end)
  <$> run_agent [Attempt (Ok ()) true [good; good; lost];
                 Attempt (Raise (Exn OSError "connection refused")) true [];
                 Attempt (Ok ()) true [good]]
  = ["connect"; "auth"; "snapshot+screenshot"; "sleep 3"; "snapshot"; "sleep 3"; "sleep 5";
     "sleep 5";
     "connect"; "auth"; "snapshot+screenshot"; "sleep 3"].
Proof. by vm_compute. Qed.

Lemma get_redis_keeps_first_live_client_witness :
  let es :=
    [Redis.Env (Raise (Exn OSError "connection refused")) (λ _, Ok ());
     Redis.Env (Ok 3%nat) (λ _, Raise (Exn OSError "timeout"));
     Redis.Env (Ok 4%nat) (λ _, Ok ());
     Redis.Env (Ok 5%nat) (λ _, Ok ())] in
  (Redis.get_redis_calls es None).2 !! 3%nat = Some (Some 4%nat, [])
  ∧ (Redis.get_redis_calls es None).1 = Some 4%nat
  ∧ ∃ k e,
      (k ≤ 3)%nat ∧ es !! k = Some e
      ∧ Redis.from_url e = Ok 4%nat ∧ Redis.ping e 4%nat = Ok ()
      ∧ ∀ j answer, (Redis.get_redis_calls es None).2 !! j = Some answer →
          ((j < k)%nat → answer.1 = None ∧ Redis.FromUrl ∈ answer.2)
          ∧ (j = k → answer = (Some 4%nat, [Redis.FromUrl; Redis.Ping 4%nat]))
          ∧ ((k < j)%nat → answer = (Some 4%nat, [])).
Proof.
  intros es.
  assert (H : (Redis.get_redis_calls es None).2 !! 3%nat = Some (Some 4%nat, []))
    by reflexivity.
  split; [exact H|].
  exact (get_redis_keeps_first_live_client es 3 4%nat [] H).
Defined.
